(** * tortoise-filters: field filters and filter sets

    A shallow embedding of [tortoise_filters/filter_fields.py] and
    [tortoise_filters/filterset.py].

    Filter descriptors are mutable Python objects that live on the
    filter-set class, so they are kept in a store indexed by reference;
    methods are state transformers over a [World] that can raise. *)

From Stdlib Require Import ZArith Ascii String.
From stdpp Require Import gmap strings list fin_maps functions pretty.

Local Open Scope string_scope.
Local Set Warnings "-register-all,-clear-no-such-hyp".

(** ** Python values *)

Record date := Date { year : Z; month : Z; day : Z }.

Record datetime := DateTime {
  dt_date : date; hour : Z; minute : Z; second : Z; microsecond : Z }.

(** The values a query parameter or a filter's [value] attribute can hold:
    [None], [bool], [int], [str], [list], [datetime.datetime] and
    [datetime.date]. *)
Inductive PyVal :=
| VNone
| VBool (b : bool)
| VInt (n : Z)
| VStr (s : string)
| VList (l : list PyVal)
| VDateTime (d : datetime)
| VDate (d : date).

(** Type expressions, as they appear in annotations. *)
Inductive PyType :=
| TInt
| TStr
| TDateTime
| TDate
| TNoneType
| TList (t : PyType)
| TUnion (a b : PyType)
| TAnnotatedQuery (t : PyType)   (* Annotated[t, Query(...)] *)
| TForwardRef (s : string).

Inductive PyExc :=
| Exception_ (msg : string)
| TypeError (msg : string)
| ValueError (msg : string)
| AttributeError (msg : string)
| NotImplementedError
| QueryError (cls : string) (msg : string).
    (* raised by the ORM or the database driver while a query runs:
       the name of its class (OverflowError, OperationalError, ...) and
       its message *)

Inductive Result (A : Type) :=
| Ok (a : A)
| Raise (e : PyExc).
Arguments Ok {A} a.
Arguments Raise {A} e.

Definition is_none (v : PyVal) : bool :=
  match v with VNone => true | _ => false end.

(** [isinstance(v, list)] *)
Definition isinstance_list (v : PyVal) : bool :=
  match v with VList _ => true | _ => false end.

(** [isinstance(v, datetime.datetime)] *)
Definition isinstance_datetime (v : PyVal) : bool :=
  match v with VDateTime _ => true | _ => false end.

(** [isinstance(v, datetime.date)]; [datetime.datetime] is a subclass of
    [datetime.date]. *)
Definition isinstance_date (v : PyVal) : bool :=
  match v with VDate _ | VDateTime _ => true | _ => false end.

(** *** The built-in [int(x)] on a string

    Base 10, as CPython 3.11 reads it: leading whitespace is skipped, one
    sign is allowed, then comes a run of decimal digits with single
    underscores between digits; a run of more than 4300 digits (the
    default of [sys.get_int_max_str_digits()]) is refused; only
    whitespace may follow the run.  Strings are sequences of ASCII
    characters. *)

Definition is_space (c : ascii) : bool :=
  let n := nat_of_ascii c in
  ((9 <=? n)%nat && (n <=? 13)%nat) || (n =? 32)%nat.

Definition is_digit (c : ascii) : bool :=
  let n := nat_of_ascii c in (48 <=? n)%nat && (n <=? 57)%nat.

Fixpoint lstrip (l : list ascii) : list ascii :=
  match l with
  | c :: r => if is_space c then lstrip r else l
  | [] => []
  end.

Definition drop_sign (l : list ascii) : list ascii :=
  match l with
  | c :: r => if Ascii.eqb c "+" || Ascii.eqb c "-" then r else l
  | [] => []
  end.

(** The run of digits and underscores at the head of [l]: the number of
    digits and what follows, or [None] on a doubled or trailing
    underscore. *)
Fixpoint scan_digits (prev_underscore : bool) (l : list ascii) (digits : nat)
  : option (nat * list ascii) :=
  match l with
  | [] => if prev_underscore then None else Some (digits, [])
  | c :: r =>
      if is_digit c then scan_digits false r (S digits)
      else if Ascii.eqb c "_"
      then (if prev_underscore then None else scan_digits true r digits)
      else (if prev_underscore then None else Some (digits, l))
  end.

Definition quote1 : ascii := ascii_of_nat 39.
Definition quote2 : ascii := ascii_of_nat 34.
Definition backslash : ascii := ascii_of_nat 92.

Definition hex_digit (d : nat) : ascii :=
  if (d <? 10)%nat then ascii_of_nat (48 + d) else ascii_of_nat (87 + d).

(** [repr] of a string: single quotes unless the string has a single
    quote and no double quote; backslash, the quote and control
    characters are escaped. *)
Definition repr_char (q : ascii) (c : ascii) : list ascii :=
  let n := nat_of_ascii c in
  if Ascii.eqb c backslash then [backslash; backslash]
  else if Ascii.eqb c q then [backslash; c]
  else if (n =? 9)%nat then [backslash; "t"%char]
  else if (n =? 10)%nat then [backslash; "n"%char]
  else if (n =? 13)%nat then [backslash; "r"%char]
  else if (n <? 32)%nat || (127 <=? n)%nat
  then [backslash; "x"%char; hex_digit (n / 16); hex_digit (n mod 16)]
  else [c].

Definition repr_str (s : string) : list ascii :=
  let l := list_ascii_of_string s in
  let q := if existsb (Ascii.eqb quote1) l && negb (existsb (Ascii.eqb quote2) l)
           then quote2 else quote1 in
  q :: flat_map (repr_char q) l ++ [q].

(** The message ends with the first 200 characters of the [repr]. *)
Definition invalid_literal (s : string) : PyExc :=
  ValueError ("invalid literal for int() with base 10: "
              +:+ string_of_list_ascii (take 200 (repr_str s))).

Definition max_str_digits : nat := 4300.

Definition exceeds_limit (digits : nat) : PyExc :=
  ValueError ("Exceeds the limit (4300 digits) for integer string conversion: "
              +:+ "value has " +:+ pretty digits
              +:+ " digits; use sys.set_int_max_str_digits() to increase the limit").

Definition int_of_str (s : string) : Result unit :=
  let body := drop_sign (lstrip (list_ascii_of_string s)) in
  match body with
  | c :: _ =>
      if Ascii.eqb c "_" then Raise (invalid_literal s)
      else
        match scan_digits false body 0 with
        | None => Raise (invalid_literal s)
        | Some (digits, rest) =>
            if (max_str_digits <? digits)%nat then Raise (exceeds_limit digits)
            else if (digits =? 0)%nat then Raise (invalid_literal s)
            else match lstrip rest with
                 | [] => Ok tt
                 | _ :: _ => Raise (invalid_literal s)
                 end
        end
  | [] => Raise (invalid_literal s)
  end.

(** [int(v)]: both callers drop the integer, so only the outcome is kept. *)
Definition py_int (v : PyVal) : Result unit :=
  match v with
  | VBool _ | VInt _ => Ok tt
  | VStr s => int_of_str s
  | VNone | VList _ | VDateTime _ | VDate _ =>
      Raise (TypeError
        "int() argument must be a string, a bytes-like object or a real number")
  end.

(** [str(v)]: every value above has a [__str__]; the string is dropped by
    the caller. *)
Definition py_str (v : PyVal) : Result unit := Ok tt.

(** f-string rendering of a [lookup_expr] *)
Definition fmt_lookup (le : option string) : string :=
  match le with Some s => s | None => "None" end.

(** ** The class hierarchy of [filter_fields.py] *)

Inductive FilterClass :=
| cBaseFieldFilter
| cNumberFilter
| cCharFilter
| cInFilter
| cDateTimeFilter
| cDateFilter
| cBaseRangeFilter
| cNumberRangeFilter
| cDateRangeFilter
| cDateTimeRangeFilter.

Global Instance FilterClass_eq_dec : EqDecision FilterClass.
Proof. solve_decision. Defined.

Definition class_name (c : FilterClass) : string :=
  match c with
  | cBaseFieldFilter => "BaseFieldFilter"
  | cNumberFilter => "NumberFilter"
  | cCharFilter => "CharFilter"
  | cInFilter => "InFilter"
  | cDateTimeFilter => "DateTimeFilter"
  | cDateFilter => "DateFilter"
  | cBaseRangeFilter => "BaseRangeFilter"
  | cNumberRangeFilter => "NumberRangeFilter"
  | cDateRangeFilter => "DateRangeFilter"
  | cDateTimeRangeFilter => "DateTimeRangeFilter"
  end.

(** The base named in each [class] statement ([ABC] for the root). *)
Definition base (c : FilterClass) : option FilterClass :=
  match c with
  | cBaseFieldFilter => None
  | cNumberFilter | cCharFilter | cInFilter | cDateTimeFilter | cDateFilter
  | cBaseRangeFilter | cDateRangeFilter | cDateTimeRangeFilter =>
      Some cBaseFieldFilter
  | cNumberRangeFilter => Some cBaseRangeFilter
  end.

Fixpoint mro_upto (n : nat) (c : FilterClass) : list FilterClass :=
  match n with
  | O => []
  | S n' => c :: match base c with Some b => mro_upto n' b | None => [] end
  end.

(** The hierarchy is three classes deep. *)
Definition mro (c : FilterClass) : list FilterClass := mro_upto 3 c.

Inductive Method :=
| m_init
| m_filter_queryset
| m_to_internal_value
| m_to_dependencies
| m_kwargs_builder
| m_check_lookup_exr
| m_method_filter
| m_annotations.

Global Instance Method_eq_dec : EqDecision Method.
Proof. solve_decision. Defined.

(** [__str__]-free names, used in the message of the abstract-class error. *)
Definition method_name (m : Method) : string :=
  match m with
  | m_init => "__init__"
  | m_filter_queryset => "filter_queryset"
  | m_to_internal_value => "to_internal_value"
  | m_to_dependencies => "to_dependencies"
  | m_kwargs_builder => "_kwargs_builder"
  | m_check_lookup_exr => "_check_lookup_exr"
  | m_method_filter => "_method_filter"
  | m_annotations => "__annotations__"
  end.

(** What each class body defines; the flag is [true] for a definition
    under [@abstractmethod]. *)
Definition own_methods (c : FilterClass) : list (Method * bool) :=
  match c with
  | cBaseFieldFilter =>
      [(m_init, false); (m_filter_queryset, true); (m_to_internal_value, true);
       (m_to_dependencies, false); (m_kwargs_builder, false);
       (m_check_lookup_exr, false); (m_method_filter, false)]
  | cNumberFilter | cCharFilter =>
      [(m_init, false); (m_to_internal_value, false);
       (m_filter_queryset, false)]
  | cInFilter =>
      [(m_init, false); (m_annotations, false); (m_to_internal_value, false);
       (m_filter_queryset, false)]
  | cDateTimeFilter | cDateFilter | cNumberRangeFilter =>
      [(m_init, false); (m_to_internal_value, false);
       (m_kwargs_builder, false); (m_filter_queryset, false)]
  | cBaseRangeFilter => [(m_init, false)]
  | cDateRangeFilter | cDateTimeRangeFilter => []
  end.

Definition own_method (c : FilterClass) (m : Method) : option bool :=
  snd <$> List.find (fun d => bool_decide (fst d = m)) (own_methods c).

(** Attribute lookup along the MRO: the first class that defines [m]. *)
Fixpoint resolve_in (chain : list FilterClass) (m : Method)
  : option (FilterClass * bool) :=
  match chain with
  | [] => None
  | c :: rest =>
      match own_method c m with
      | Some abs => Some (c, abs)
      | None => resolve_in rest m
      end
  end.

Definition resolve (c : FilterClass) (m : Method) : option FilterClass :=
  fst <$> resolve_in (mro c) m.

Definition is_abstract_in (c : FilterClass) (m : Method) : bool :=
  match resolve_in (mro c) m with
  | Some (_, abs) => abs
  | None => false
  end.

(** [ABCMeta.__new__]: the class's own abstract definitions, plus the
    names abstract in the base that still resolve to an abstract
    definition. *)
Fixpoint abstracts_along (chain : list FilterClass) : list Method :=
  match chain with
  | [] => []
  | c :: rest =>
      List.map fst (List.filter snd (own_methods c))
      ++ List.filter (is_abstract_in c) (abstracts_along rest)
  end.

Definition abstractmethods (c : FilterClass) : list Method :=
  abstracts_along (mro c).

Definition instantiable (c : FilterClass) : bool :=
  match abstractmethods c with [] => true | _ => false end.

(** The class attribute [available_expr], as found from each class. *)
Definition own_available_expr (c : FilterClass)
  : option (option (list (option string))) :=
  match c with
  | cBaseFieldFilter => Some None
  | cNumberFilter => Some (Some [Some "gt"; Some "gte"; Some "lt"; Some "lte"; None])
  | cCharFilter =>
      Some (Some [Some "iexact"; Some "exact"; Some "contains"; Some "icontains";
                  Some "startswith"; Some "istartswith"; Some "endswith";
                  Some "iendswith"; None])
  | cInFilter => Some (Some [None])
  | cDateTimeFilter | cDateFilter =>
      Some (Some [Some "exact"; Some "iexact"; Some "contains"; Some "icontains";
                  Some "gt"; Some "gte"; Some "lt"; Some "lte"; Some "range";
                  Some "isnull"; Some "year"; Some "month"; Some "day";
                  Some "week_day"; Some "hour"; Some "minute"; Some "second";
                  None])
  | cNumberRangeFilter => Some (Some [Some "gte"; Some "gt"; None])
  | cBaseRangeFilter | cDateRangeFilter | cDateTimeRangeFilter => None
  end.

Fixpoint first_some {A B} (f : A -> option B) (l : list A) : option B :=
  match l with
  | [] => None
  | x :: r => match f x with Some y => Some y | None => first_some f r end
  end.

Definition available_expr (c : FilterClass) : option (list (option string)) :=
  match first_some own_available_expr (mro c) with
  | Some v => v
  | None => None
  end.

(** Class-level annotations written in each class body. *)
Definition own_annotations (c : FilterClass) : option (list (string * PyType)) :=
  match c with
  | cNumberFilter => Some [("value", TInt)]
  | cCharFilter => Some [("value", TStr)]
  | cInFilter => Some [("value", TStr)]
  | cDateTimeFilter => Some [("value", TDateTime)]
  | cDateFilter => Some [("value", TDate)]
  | cBaseRangeFilter => Some [("value_min", TInt); ("value_max", TInt)]
  | cBaseFieldFilter | cNumberRangeFilter
  | cDateRangeFilter | cDateTimeRangeFilter => None
  end.

(** ** Filter objects, querysets and the world *)

(** A [BaseFieldFilter] instance.  [fclass] is its class; [_annotations]
    is the per-instance dictionary [InFilter.__init__] stores (its single
    entry ['value']). *)
Record FieldFilter := {
  fclass : FilterClass;
  field_name : string;
  lookup_expr : option string;
  method : option string;
  value : PyVal;
  _annotations : option PyType }.

(** The ORM's queryset: lazily evaluated and chainable.  [filter]
    returns a copy with one more keyword predicate; nothing is checked or
    run until the queryset is awaited. *)
Record QuerySet := {
  qs_model : string;
  qs_filters : list (gmap string PyVal) }.

Definition qs_filter (q : QuerySet) (kwargs : gmap string PyVal) : QuerySet :=
  {| qs_model := qs_model q; qs_filters := qs_filters q ++ [kwargs] |}.

(** What [print] writes. *)
Inductive Printed :=
| PrStr (s : string)
| PrDict (d : gmap string PyVal)
| PrRows (q : QuerySet).        (* the rows obtained by running [q] *)

Definition ref := nat.

(** [db] is how the database answers a query that is run: [None] when it
    returns rows, the class and message of the exception otherwise.
    [executed] lists the querysets that were awaited, in order. *)
Record World := {
  heap : ref -> FieldFilter;      (* the filter descriptors, by reference *)
  stdout : list Printed;
  executed : list QuerySet;
  db : QuerySet -> option (string * string) }.

Definition M (A : Type) : Type := World -> Result A * World.

Global Instance M_ret : MRet M := fun A (a : A) w => (Ok a, w).

Global Instance M_bind : MBind M := fun A B (k : A -> M B) (m : M A) w =>
  match m w with
  | (Ok a, w') => k a w'
  | (Raise e, w') => (Raise e, w')
  end.

Definition raise {A} (e : PyExc) : M A := fun w => (Raise e, w).

Definition get_obj (self : ref) : M FieldFilter := fun w => (Ok (heap w self), w).

Definition set_obj (self : ref) (f : FieldFilter) : M unit := fun w =>
  (Ok tt, {| heap := <[self := f]> (heap w);
             stdout := stdout w; executed := executed w; db := db w |}).

Definition print (p : Printed) : M unit := fun w =>
  (Ok tt, {| heap := heap w; stdout := stdout w ++ [p];
             executed := executed w; db := db w |}).

(** [await queryset]: the query is run; what the database raises
    propagates. *)
Definition await_queryset (q : QuerySet) : M Printed := fun w =>
  let w' := {| heap := heap w; stdout := stdout w;
               executed := executed w ++ [q]; db := db w |} in
  match db w q with
  | None => (Ok (PrRows q), w')
  | Some (cls, msg) => (Raise (QueryError cls msg), w')
  end.

Definition set_value (f : FieldFilter) (v : PyVal) : FieldFilter :=
  {| fclass := fclass f; field_name := field_name f;
     lookup_expr := lookup_expr f; method := method f;
     value := v; _annotations := _annotations f |}.

Definition set_lookup_expr (f : FieldFilter) (le : option string) : FieldFilter :=
  {| fclass := fclass f; field_name := field_name f;
     lookup_expr := le; method := method f;
     value := value f; _annotations := _annotations f |}.

(** ** Methods of the field filters *)

Module BaseFieldFilter.

Definition filter_queryset (self : ref) (queryset : QuerySet) (v : PyVal)
  : M QuerySet := raise NotImplementedError.

Definition to_internal_value (self : ref) : M unit :=
  raise NotImplementedError.

Definition _kwargs_builder (self : ref) (v : PyVal) : M (gmap string PyVal) :=
  f ← get_obj self;
  match lookup_expr f with
  | Some le => mret {[ (field_name f +:+ "__") +:+ le := v ]}
  | None => mret {[ field_name f := v ]}
  end.

Definition _check_lookup_exr (self : ref) : M unit :=
  f ← get_obj self;
  match available_expr (fclass f) with
  | None => raise (TypeError "'NoneType' object is not iterable")
  | Some allowed =>
      if bool_decide (lookup_expr f ∈ allowed) then mret tt
      else raise (Exception_
             ("Invalid lookup expression: " +:+ fmt_lookup (lookup_expr f)))
  end.

End BaseFieldFilter.

Module NumberFilter.

Definition to_internal_value (self : ref) : M unit :=
  f ← get_obj self;
  match py_int (value f) with
  | Ok _ => mret tt
  | Raise (TypeError _) => raise (TypeError "Invalid type")
  | Raise e => raise e
  end.

End NumberFilter.

Module CharFilter.

Definition to_internal_value (self : ref) : M unit :=
  f ← get_obj self;
  match py_str (value f) with
  | Ok _ => mret tt
  | Raise (TypeError _) => raise (TypeError "Invalid type")
  | Raise e => raise e
  end.

End CharFilter.

Module InFilter.

Definition to_internal_value (self : ref) : M unit :=
  f ← get_obj self;
  if negb (isinstance_list (value f)) then raise (TypeError "Invalid type")
  else mret tt.

End InFilter.

Module DateTimeFilter.

Definition to_internal_value (self : ref) : M unit :=
  f ← get_obj self;
  if negb (isinstance_datetime (value f)) then raise (TypeError "Invalid type")
  else mret tt.

Definition _kwargs_builder (self : ref) (v : PyVal) : M (gmap string PyVal) :=
  f ← get_obj self;
  match lookup_expr f with
  | Some le => mret {[ (field_name f +:+ "__") +:+ le := v ]}
  | None => mret {[ field_name f := v ]}
  end.

End DateTimeFilter.

Module DateFilter.

Definition to_internal_value (self : ref) : M unit :=
  f ← get_obj self;
  if negb (isinstance_date (value f)) then raise (TypeError "Invalid type")
  else mret tt.

Definition _kwargs_builder (self : ref) (v : PyVal) : M (gmap string PyVal) :=
  f ← get_obj self;
  match lookup_expr f with
  | Some le => mret {[ (field_name f +:+ "__") +:+ le := v ]}
  | None => mret {[ field_name f := v ]}
  end.

End DateFilter.

Module NumberRangeFilter.

Definition to_internal_value (self : ref) : M unit :=
  f ← get_obj self;
  match py_int (value f) with
  | Ok _ => mret tt
  | Raise (TypeError _) => raise (TypeError "Invalid type")
  | Raise e => raise e
  end.

Definition _kwargs_builder (self : ref) (v : PyVal) : M (gmap string PyVal) :=
  f ← get_obj self;
  match lookup_expr f with
  | Some le =>
      _ ← print (PrStr (field_name f));
      mret {[ (field_name f +:+ "__") +:+ le := v ]}
  | None => mret {[ field_name f := v ]}
  end.

End NumberRangeFilter.

(** *** Dynamic dispatch of [self.<method>()] *)

Definition no_attribute {A} (f : FieldFilter) (m : Method) : M A :=
  raise (AttributeError
    ("'" +:+ class_name (fclass f) +:+ "' object has no attribute '"
         +:+ method_name m +:+ "'")).

Definition to_internal_value (self : ref) : M unit :=
  f ← get_obj self;
  match resolve (fclass f) m_to_internal_value with
  | Some cBaseFieldFilter => BaseFieldFilter.to_internal_value self
  | Some cNumberFilter => NumberFilter.to_internal_value self
  | Some cCharFilter => CharFilter.to_internal_value self
  | Some cInFilter => InFilter.to_internal_value self
  | Some cDateTimeFilter => DateTimeFilter.to_internal_value self
  | Some cDateFilter => DateFilter.to_internal_value self
  | Some cNumberRangeFilter => NumberRangeFilter.to_internal_value self
  | _ => no_attribute f m_to_internal_value
  end.

Definition _kwargs_builder (self : ref) (v : PyVal) : M (gmap string PyVal) :=
  f ← get_obj self;
  match resolve (fclass f) m_kwargs_builder with
  | Some cBaseFieldFilter => BaseFieldFilter._kwargs_builder self v
  | Some cDateTimeFilter => DateTimeFilter._kwargs_builder self v
  | Some cDateFilter => DateFilter._kwargs_builder self v
  | Some cNumberRangeFilter => NumberRangeFilter._kwargs_builder self v
  | _ => no_attribute f m_kwargs_builder
  end.

Definition _check_lookup_exr (self : ref) : M unit :=
  f ← get_obj self;
  match resolve (fclass f) m_check_lookup_exr with
  | Some cBaseFieldFilter => BaseFieldFilter._check_lookup_exr self
  | _ => no_attribute f m_check_lookup_exr
  end.

(** *** [filter_queryset], class by class

    The test is on the attribute [self.value]; the predicate is built from
    the argument [v]. *)

Definition NumberFilter_filter_queryset (self : ref) (queryset : QuerySet)
    (v : PyVal) : M QuerySet :=
  f ← get_obj self;
  if is_none (value f) then mret queryset
  else
    _ ← _check_lookup_exr self;
    _ ← to_internal_value self;
    kwargs ← _kwargs_builder self v;
    mret (qs_filter queryset kwargs).

Definition CharFilter_filter_queryset (self : ref) (queryset : QuerySet)
    (v : PyVal) : M QuerySet :=
  f ← get_obj self;
  if is_none (value f) then mret queryset
  else
    _ ← _check_lookup_exr self;
    _ ← to_internal_value self;
    kwargs ← _kwargs_builder self v;
    mret (qs_filter queryset kwargs).

Definition InFilter_filter_queryset (self : ref) (queryset : QuerySet)
    (v : PyVal) : M QuerySet :=
  f ← get_obj self;
  if is_none (value f) then mret queryset
  else
    _ ← set_obj self (set_lookup_expr f (Some "in"));
    _ ← to_internal_value self;
    kwargs ← _kwargs_builder self v;
    mret (qs_filter queryset kwargs).

Definition DateTimeFilter_filter_queryset (self : ref) (queryset : QuerySet)
    (v : PyVal) : M QuerySet :=
  f ← get_obj self;
  if is_none (value f) then mret queryset
  else
    _ ← _check_lookup_exr self;
    _ ← to_internal_value self;
    kwargs ← _kwargs_builder self v;
    mret (qs_filter queryset kwargs).

Definition DateFilter_filter_queryset (self : ref) (queryset : QuerySet)
    (v : PyVal) : M QuerySet :=
  f ← get_obj self;
  if is_none (value f) then mret queryset
  else
    _ ← _check_lookup_exr self;
    _ ← to_internal_value self;
    kwargs ← _kwargs_builder self v;
    mret (qs_filter queryset kwargs).

Definition NumberRangeFilter_filter_queryset (self : ref) (queryset : QuerySet)
    (v : PyVal) : M QuerySet :=
  f ← get_obj self;
  if is_none (value f) then mret queryset
  else
    _ ← _check_lookup_exr self;
    _ ← to_internal_value self;
    kwargs ← _kwargs_builder self v;
    _ ← print (PrDict kwargs);
    let queryset' := qs_filter queryset kwargs in
    a ← await_queryset queryset';
    _ ← print a;
    mret queryset'.

Definition filter_queryset (self : ref) (queryset : QuerySet) (v : PyVal)
  : M QuerySet :=
  f ← get_obj self;
  match resolve (fclass f) m_filter_queryset with
  | Some cBaseFieldFilter => BaseFieldFilter.filter_queryset self queryset v
  | Some cNumberFilter => NumberFilter_filter_queryset self queryset v
  | Some cCharFilter => CharFilter_filter_queryset self queryset v
  | Some cInFilter => InFilter_filter_queryset self queryset v
  | Some cDateTimeFilter => DateTimeFilter_filter_queryset self queryset v
  | Some cDateFilter => DateFilter_filter_queryset self queryset v
  | Some cNumberRangeFilter => NumberRangeFilter_filter_queryset self queryset v
  | _ => no_attribute f m_filter_queryset
  end.

(** *** Construction *)

Record InitArgs := {
  a_field_name : string;
  a_lookup_expr : option string;   (* default None *)
  a_value : PyVal;                 (* default None *)
  a_method : option string;        (* default None *)
  a_type_field : PyType }.         (* InFilter only, default int *)

(** [BaseFieldFilter.__init__]; it sets no [value], and every class that
    inherits it unchanged is abstract. *)
Definition BaseFieldFilter_init (c : FilterClass) (a : InitArgs) : FieldFilter :=
  {| fclass := c; field_name := a_field_name a; lookup_expr := a_lookup_expr a;
     method := a_method a; value := VNone; _annotations := None |}.

(** The [__init__] of NumberFilter, CharFilter, DateTimeFilter, DateFilter
    and NumberRangeFilter: [self.value = value], then the base initialiser. *)
Definition value_init (c : FilterClass) (a : InitArgs) : FieldFilter :=
  set_value (BaseFieldFilter_init c a) (a_value a).

Definition InFilter_init (c : FilterClass) (a : InitArgs) : FieldFilter :=
  {| fclass := c; field_name := a_field_name a; lookup_expr := a_lookup_expr a;
     method := a_method a; value := a_value a;
     _annotations :=
       Some (TAnnotatedQuery (TUnion (TList (a_type_field a)) TNoneType)) |}.

Fixpoint join (sep : string) (l : list string) : string :=
  match l with
  | [] => ""
  | [x] => x
  | x :: r => x +:+ sep +:+ join sep r
  end.

(** [C(...)]: [object.__new__] refuses a class with abstract methods left
    (the wording of the message is that of Python up to 3.11), otherwise
    the resolved [__init__] runs. *)
Definition new (c : FilterClass) (a : InitArgs) : Result FieldFilter :=
  match abstractmethods c with
  | (_ :: _) as ms =>
      Raise (TypeError
        ("Can't instantiate abstract class " +:+ class_name c
           +:+ " with abstract methods " +:+ join ", " (method_name <$> ms)))
  | [] =>
      match resolve c m_init with
      | Some cInFilter => Ok (InFilter_init c a)
      | Some cBaseFieldFilter | Some cBaseRangeFilter =>
          Ok (BaseFieldFilter_init c a)
      | _ => Ok (value_init c a)
      end
  end.

(** [self.__annotations__.get('value')] on an instance: the property of
    InFilter when the class has it, else the first [__annotations__] found
    in a class body along the MRO (instance attribute lookup, as in Python
    up to 3.13). *)
Definition annotations_get_value (f : FieldFilter) : Result (option PyType) :=
  match resolve (fclass f) m_annotations with
  | Some _ =>
      match _annotations f with
      | Some t => Ok (Some t)
      | None => Raise (AttributeError
                  "'InFilter' object has no attribute '_annotations'")
      end
  | None =>
      match first_some own_annotations (mro (fclass f)) with
      | Some d => Ok (snd <$> List.find (fun e => String.eqb (fst e) "value") d)
      | None => Raise (AttributeError
                  ("'" +:+ class_name (fclass f)
                       +:+ "' object has no attribute '__annotations__'"))
      end
  end.

(** ** [filterset.py] *)

Record FieldInfo := { annotation : PyType; default : PyVal }.

(** A class derived from [Dependencies]: its name and [model_fields]. *)
Record DependenciesClass := {
  dep_name : string;
  model_fields : gmap string FieldInfo }.

(** Objects that can sit in a field definition. *)
Inductive PyObj :=
| OType (t : PyType)
| OVal (v : PyVal).

Inductive FieldDef :=
| DTuple (l : list PyObj)
| DDefault (v : PyObj).

Definition truthy (o : PyObj) : bool :=
  match o with
  | OType _ => true
  | OVal VNone => false
  | OVal (VBool b) => b
  | OVal (VInt n) => negb (n =? 0)%Z
  | OVal (VStr s) => negb (String.eqb s "")
  | OVal (VList l) => match l with [] => false | _ => true end
  | OVal (VDateTime _) | OVal (VDate _) => true
  end.

(** [typing.Optional[x]]: [x] must be a type, [None] or a forward
    reference; [Optional[None]] is [NoneType].  A string stands for the
    source text of a type expression. *)
Definition Optional_ (o : PyObj) : Result PyType :=
  match o with
  | OType TNoneType | OVal VNone => Ok TNoneType
  | OType t => Ok (TUnion t TNoneType)
  | OVal (VStr s) => Ok (TUnion (TForwardRef s) TNoneType)
  | OVal _ => Raise (TypeError "Optional[t] requires a single type.")
  end.

Definition add_fields_msg : string :=
  "field definitions should either be a tuple of (<type>, <default>) or just a "
  +:+ "default value, unfortunately this means tuples as "
  +:+ "default values are not allowed".

(** The loop of [Dependencies.add_fields] over the keyword arguments,
    building [new_fields] ([new_annotations] is filled but never read). *)
Fixpoint add_fields_loop (defs : list (string * FieldDef))
    (new_fields : gmap string FieldInfo) : Result (gmap string FieldInfo) :=
  match defs with
  | [] => Ok new_fields
  | (f_name, f_def) :: rest =>
      let unpacked :=
        match f_def with
        | DTuple [f_annotation; f_value] => Ok (f_annotation, f_value)
        | DTuple _ => Raise (Exception_ add_fields_msg)
        | DDefault v => Ok (OVal VNone, v)
        end in
      match unpacked with
      | Raise e => Raise e
      | Ok (f_annotation, f_value) =>
          match (if truthy f_annotation then Optional_ f_annotation
                 else Ok TNoneType) with
          | Raise e => Raise e
          | Ok _ =>
              match Optional_ f_annotation with
              | Raise e => Raise e
              | Ok t =>
                  add_fields_loop rest
                    (<[f_name := {| annotation := t; default := VNone |}]>
                       new_fields)
              end
          end
      end
  end.

(** [cls.model_fields.update(new_fields)]; [model_rebuild] leaves
    [model_fields] as they are. *)
Definition add_fields (cls : DependenciesClass) (defs : list (string * FieldDef))
  : Result DependenciesClass :=
  match add_fields_loop defs ∅ with
  | Raise e => Raise e
  | Ok new_fields =>
      Ok {| dep_name := dep_name cls;
            model_fields := new_fields ∪ model_fields cls |}
  end.

Definition create_dynamic_class (name : string) : DependenciesClass :=
  {| dep_name := name; model_fields := ∅ |}.

Record Field := { model_field_name : string }.

(** A tortoise model: its name and [_meta.fields_map]. *)
Record Model := {
  model_name : string;
  fields_map : gmap string Field }.

(** An attribute of a filter-set class: a reference to a field filter, or
    anything else ([model], methods, [__module__], ...). *)
Inductive Attr :=
| AFilter (r : ref)
| AOther.

(** Assignment in an insertion-ordered dictionary: an existing key keeps
    its position. *)
Fixpoint dict_set {A} (k : string) (v : A) (d : list (string * A))
  : list (string * A) :=
  match d with
  | [] => [(k, v)]
  | (k', v') :: r =>
      if String.eqb k' k then (k, v) :: r else (k', v') :: dict_set k v r
  end.

(** A subclass of [FilterSet]: [__name__], the [model] attribute and the
    assignments of the class body, top to bottom. *)
Record FilterSetClass := {
  cls_name : string;
  model : option Model;
  body : list (string * Attr) }.

(** [cls.__dict__]: the namespace the class body leaves behind. *)
Definition class_dict (c : FilterSetClass) : list (string * Attr) :=
  fold_left (fun d kv => dict_set (fst kv) (snd kv) d) (body c) [].

Record FilterSetInstance := {
  self_class : FilterSetClass;
  query_params : gmap string PyVal }.

Definition model_field_names (m : Model) : list string :=
  (fun kv => model_field_name (snd kv)) <$> map_to_list (fields_map m).

Module BaseFilterSet.

(** [self.model.all()] *)
Definition get_queryset (self : FilterSetInstance) : M QuerySet :=
  match model (self_class self) with
  | None => raise (AttributeError "'NoneType' object has no attribute 'all'")
  | Some m => mret {| qs_model := model_name m; qs_filters := [] |}
  end.

Fixpoint filter_field_names (attr : list (string * Attr)) (w : World)
  : list string :=
  match attr with
  | [] => []
  | (_, AFilter r) :: rest =>
      field_name (heap w r) :: filter_field_names rest w
  | (_, AOther) :: rest => filter_field_names rest w
  end.

Fixpoint check_loop (filter_fields model_fields : list string) : Result unit :=
  match filter_fields with
  | [] => Ok tt
  | fname :: rest =>
      if bool_decide (fname ∈ model_fields) then check_loop rest model_fields
      else Raise (Exception_ "this field does not belong to model")
  end.

Definition check_fields_appearance (attr : list (string * Attr))
    (model : option Model) (w : World) : Result unit :=
  let filter_fields := filter_field_names attr w in
  match model with
  | None => Raise (AttributeError "'NoneType' object has no attribute '_meta'")
  | Some m => check_loop filter_fields (model_field_names m)
  end.

Definition ann_obj (a : option PyType) : PyObj :=
  match a with Some t => OType t | None => OVal VNone end.

Fixpoint deps_loop (attr : list (string * Attr)) (w : World)
    (DynamicClass : DependenciesClass) : Result DependenciesClass :=
  match attr with
  | [] => Ok DynamicClass
  | (key, AFilter r) :: rest =>
      match annotations_get_value (heap w r) with
      | Raise e => Raise e
      | Ok a =>
          match add_fields DynamicClass
                  [(key, DTuple [ann_obj a; OVal VNone])] with
          | Raise e => Raise e
          | Ok DynamicClass' => deps_loop rest w DynamicClass'
          end
      end
  | (_, AOther) :: rest => deps_loop rest w DynamicClass
  end.

Definition to_dependencies (cls : FilterSetClass) (w : World)
  : Result DependenciesClass :=
  let DynamicClass := create_dynamic_class (cls_name cls +:+ "Dependencies") in
  let attributes := class_dict cls in
  match check_fields_appearance attributes (model cls) w with
  | Raise e => Raise e
  | Ok _ => deps_loop attributes w DynamicClass
  end.

End BaseFilterSet.

Module FilterSet.

(** The loop of [filter_queryset]; [queryset] is [self.queryset]. *)
Fixpoint apply_loop (attr : list (string * Attr))
    (query_params : gmap string PyVal) (queryset : QuerySet) : M QuerySet :=
  match attr with
  | [] => mret queryset
  | (key, AFilter r) :: rest =>
      match query_params !! key with
      | Some v =>
          _ ← print (PrDict query_params);
          f ← get_obj r;
          _ ← set_obj r (set_value f v);
          f' ← get_obj r;
          queryset' ← filter_queryset r queryset (value f');
          apply_loop rest query_params queryset'
      | None => apply_loop rest query_params queryset
      end
  | (_, AOther) :: rest => apply_loop rest query_params queryset
  end.

Definition filter_queryset (self : FilterSetInstance) : M QuerySet :=
  let attributes := class_dict (self_class self) in
  queryset ← BaseFilterSet.get_queryset self;
  apply_loop attributes (query_params self) queryset.

End FilterSet.

(** ** Vocabulary of the statements *)

(** The key of the keyword predicate for a filter in its current state. *)
Definition kwargs_key (f : FieldFilter) : string :=
  match lookup_expr f with
  | Some le => (field_name f +:+ "__") +:+ le
  | None => field_name f
  end.

(** Membership of [lookup_expr] in the class's [available_expr]. *)
Definition lookup_allowed (f : FieldFilter) : bool :=
  match available_expr (fclass f) with
  | Some allowed => bool_decide (lookup_expr f ∈ allowed)
  | None => false
  end.

Definition invalid_lookup (f : FieldFilter) : PyExc :=
  Exception_ ("Invalid lookup expression: " +:+ fmt_lookup (lookup_expr f)).

(** What [to_internal_value] raises, class by class. *)
Definition type_error (c : FilterClass) (v : PyVal) : option PyExc :=
  match c with
  | cNumberFilter | cNumberRangeFilter =>
      match py_int v with
      | Ok _ => None
      | Raise (TypeError _) => Some (TypeError "Invalid type")
      | Raise e => Some e
      end
  | cInFilter =>
      if isinstance_list v then None else Some (TypeError "Invalid type")
  | cDateTimeFilter =>
      if isinstance_datetime v then None else Some (TypeError "Invalid type")
  | cDateFilter =>
      if isinstance_date v then None else Some (TypeError "Invalid type")
  | _ => None
  end.

Definition print_to (w : World) (ps : list Printed) : World :=
  {| heap := heap w; stdout := stdout w ++ ps; executed := executed w;
     db := db w |}.

(** What [_kwargs_builder] prints: only NumberRangeFilter's does. *)
Definition builder_prints (f : FieldFilter) : list Printed :=
  match fclass f, lookup_expr f with
  | cNumberRangeFilter, Some _ => [PrStr (field_name f)]
  | _, _ => []
  end.

(** The world after [InFilter.filter_queryset] has overwritten
    [self.lookup_expr]. *)
Definition force_in (w : World) (self : ref) : World :=
  {| heap := <[self := set_lookup_expr (heap w self) (Some "in")]> (heap w);
     stdout := stdout w; executed := executed w; db := db w |}.

(** The world once NumberRangeFilter has printed the field name and the
    predicate and has awaited the queryset [q]. *)
Definition range_awaited (w : World) (f : FieldFilter)
    (kwargs : gmap string PyVal) (q : QuerySet) : World :=
  {| heap := heap w;
     stdout := stdout w ++ builder_prints f ++ [PrDict kwargs];
     executed := executed w ++ [q];
     db := db w |}.

(** What the await of NumberRangeFilter makes of the filtered queryset
    [q]; the other classes return it without running it. *)
Definition await_result (w : World) (c : FilterClass) (q : QuerySet)
  : Result QuerySet :=
  match c with
  | cNumberRangeFilter =>
      match db w q with
      | None => Ok q
      | Some (cls, msg) => Raise (QueryError cls msg)
      end
  | _ => Ok q
  end.

(** The key under which a filter's predicate reaches the ORM: InFilter
    replaces its [lookup_expr] by ['in'] first. *)
Definition predicate_key (f : FieldFilter) : string :=
  match fclass f with
  | cInFilter => kwargs_key (set_lookup_expr f (Some "in"))
  | _ => kwargs_key f
  end.

(** A value of a type the filter's check rejects: one [int()] cannot take
    (NumberFilter, NumberRangeFilter), one that is not a list (InFilter),
    not a datetime (DateTimeFilter), not a date (DateFilter).  [str()]
    takes every value (CharFilter). *)
Definition wrong_type (c : FilterClass) (v : PyVal) : bool :=
  match c with
  | cNumberFilter | cNumberRangeFilter =>
      match v with
      | VBool _ | VInt _ | VStr _ => false
      | _ => true
      end
  | cInFilter => negb (isinstance_list v)
  | cDateTimeFilter => negb (isinstance_datetime v)
  | cDateFilter => negb (isinstance_date v)
  | _ => false
  end.

(** The message of the [ValueError] with which [int()] refuses a string
    (not an integer literal, or too many digits), for the two classes
    that call it. *)
Definition int_refusal (c : FilterClass) (v : PyVal) : option string :=
  match c, v with
  | (cNumberFilter | cNumberRangeFilter), VStr s =>
      match int_of_str s with
      | Raise (ValueError msg) => Some msg
      | _ => None
      end
  | _, _ => None
  end.

(** A value that is not a string with characters outside ASCII, for
    which the reading of [int()] above holds. *)
Definition ascii_value (v : PyVal) : bool :=
  match v with
  | VStr s =>
      forallb (fun c => (nat_of_ascii c <? 128)%nat) (list_ascii_of_string s)
  | _ => true
  end.

(** The classes whose [filter_queryset] calls [_check_lookup_exr]. *)
Definition checking_classes : list FilterClass :=
  [cNumberFilter; cCharFilter; cDateTimeFilter; cDateFilter; cNumberRangeFilter].

(** A descriptor as a constructor leaves it: of a concrete class, and
    with [_annotations] set when it is an InFilter. *)
Definition well_formed (f : FieldFilter) : bool :=
  instantiable (fclass f) &&
  match fclass f with
  | cInFilter => bool_decide (is_Some (_annotations f))
  | _ => true
  end.

(** A value that passes the filter's checks: the lookup is allowed (not
    checked by InFilter) and the type check raises nothing. *)
Definition accepts (f : FieldFilter) (v : PyVal) : bool :=
  (bool_decide (fclass f = cInFilter) || lookup_allowed f)
  && negb (wrong_type (fclass f) v)
  && bool_decide (int_refusal (fclass f) v = None).

(** The predicates [FilterSet.filter_queryset] chains: one for each
    declared field filter, in the order of the class dictionary, whose
    attribute name is a key of [query_params] with a value other than
    [None]. *)
Fixpoint chained (attr : list (string * Attr)) (params : gmap string PyVal)
    (h : ref -> FieldFilter) : list (gmap string PyVal) :=
  match attr with
  | [] => []
  | (key, AFilter r) :: rest =>
      match params !! key with
      | Some v =>
          if is_none v then chained rest params h
          else {[ predicate_key (h r) := v ]} :: chained rest params h
      | None => chained rest params h
      end
  | (_, AOther) :: rest => chained rest params h
  end.

(** The world after [value.value = self.query_params[key]], the
    parameters having been printed. *)
Definition assign (w : World) (params : gmap string PyVal) (r : ref) (v : PyVal)
  : World :=
  {| heap := <[r := set_value (heap w r) v]> (heap w);
     stdout := stdout w ++ [PrDict params];
     executed := executed w;
     db := db w |}.

(** The value last assigned to descriptor [r] by the loop, [cur] if
    none. *)
Fixpoint last_assigned (attr : list (string * Attr)) (params : gmap string PyVal)
    (r : ref) (cur : PyVal) : PyVal :=
  match attr with
  | [] => cur
  | (key, AFilter r0) :: rest =>
      last_assigned rest params r
        (if decide (r0 = r)
         then match params !! key with Some v => v | None => cur end
         else cur)
  | (_, AOther) :: rest => last_assigned rest params r cur
  end.

(** What [filter_queryset] never changes in a descriptor. *)
Definition same_static (h h' : ref -> FieldFilter) : Prop :=
  forall r,
    fclass (h' r) = fclass (h r) /\
    field_name (h' r) = field_name (h r) /\
    (fclass (h r) <> cInFilter -> lookup_expr (h' r) = lookup_expr (h r)).

(** What no method ever changes in a descriptor: its class, field name,
    method and per-instance annotations, and, unless it is an InFilter,
    its lookup. *)
Definition same_shape (h h' : ref -> FieldFilter) : Prop :=
  forall r,
    fclass (h' r) = fclass (h r) /\
    field_name (h' r) = field_name (h r) /\
    method (h' r) = method (h r) /\
    _annotations (h' r) = _annotations (h r) /\
    (fclass (h r) <> cInFilter -> lookup_expr (h' r) = lookup_expr (h r)).

(** The result of the loop of [FilterSet.filter_queryset] as a function of
    the descriptors' class, field name and lookup and of the database's
    answers alone: the stored values play no part, each applied filter
    sees the parameter just assigned. *)
Fixpoint outcome (attr : list (string * Attr)) (params : gmap string PyVal)
    (h : ref -> FieldFilter) (w : World) (qs : QuerySet) : Result QuerySet :=
  match attr with
  | [] => Ok qs
  | (key, AFilter r) :: rest =>
      match params !! key with
      | Some v =>
          if is_none v then outcome rest params h w qs
          else if bool_decide (fclass (h r) = cInFilter) || lookup_allowed (h r)
          then match type_error (fclass (h r)) v with
               | None =>
                   match await_result w (fclass (h r))
                           (qs_filter qs {[ predicate_key (h r) := v ]}) with
                   | Ok qs' => outcome rest params h w qs'
                   | Raise e => Raise e
                   end
               | Some e => Raise e
               end
          else Raise (invalid_lookup (h r))
      | None => outcome rest params h w qs
      end
  | (_, AOther) :: rest => outcome rest params h w qs
  end.

(** ** Concrete objects used in the examples *)

Definition init_args (name : string) (le : option string) (v : PyVal) : InitArgs :=
  {| a_field_name := name; a_lookup_expr := le; a_value := v;
     a_method := None; a_type_field := TInt |}.

(** A world holding the given descriptors at references 0, 1, ...; other
    references hold [d].  Its database answers every query. *)
Definition world_of (objs : list FieldFilter) (d : FieldFilter) : World :=
  {| heap := fun r => match objs !! r with Some f => f | None => d end;
     stdout := []; executed := []; db := fun _ => None |}.

Definition ex_age_gte : FieldFilter :=
  value_init cNumberFilter (init_args "age" (Some "gte") VNone).

Definition ex_age_list : FieldFilter :=
  value_init cNumberFilter (init_args "age" None (VList [])).


Definition ex_age_7 : FieldFilter :=
  value_init cNumberFilter (init_args "age" (Some "gte") (VInt 7)).

Definition ex_tags_gt : FieldFilter :=
  InFilter_init cInFilter (init_args "tags" (Some "gt") (VList [VInt 1])).

Definition ex_score : FieldFilter :=
  value_init cNumberRangeFilter (init_args "score" (Some "gte") (VInt 10)).

Definition ex_qs : QuerySet := {| qs_model := "User"; qs_filters := [] |}.

Definition ex_model : Model :=
  {| model_name := "User";
     fields_map := {[ "id" := {| model_field_name := "id" |};
                      "age" := {| model_field_name := "age" |};
                      "tags" := {| model_field_name := "tags" |};
                      "score" := {| model_field_name := "score" |} ]} |}.

Definition ex_tags : FieldFilter :=
  InFilter_init cInFilter (init_args "tags" None VNone).

Definition ex_score_none : FieldFilter :=
  value_init cNumberRangeFilter (init_args "score" None VNone).

Definition ex_height : FieldFilter :=
  value_init cNumberFilter (init_args "height" None VNone).

(** [class UserFilter(FilterSet)] with [model = User] and three filters. *)
Definition ex_cls : FilterSetClass :=
  {| cls_name := "UserFilter";
     model := Some ex_model;
     body := [("__module__", AOther); ("model", AOther); ("age", AFilter 0);
              ("tags", AFilter 1); ("score", AFilter 2)] |}.

Definition ex_world : World :=
  world_of [ex_age_gte; ex_tags; ex_score_none] ex_age_gte.

(** The same class with a filter on a field the model does not have. *)
Definition ex_cls_height : FilterSetClass :=
  {| cls_name := "UserFilter";
     model := Some ex_model;
     body := [("model", AOther); ("age", AFilter 0); ("height", AFilter 3)] |}.

Definition ex_world_height : World :=
  world_of [ex_age_gte; ex_tags; ex_score_none; ex_height] ex_age_gte.

Definition ex_instance (params : gmap string PyVal) : FilterSetInstance :=
  {| self_class := ex_cls; query_params := params |}.

Definition ex_created_date : FieldFilter :=
  value_init cDateTimeFilter
    (init_args "created" (Some "gte") (VDate (Date 2024 1 31))).






(** ** Auxiliary facts *)

Ltac unfold_m :=
  unfold mbind, M_bind, mret, M_ret, get_obj, set_obj, print, await_queryset,
    raise in *.

Ltac eval_class :=
  repeat match goal with
  | |- context [resolve ?c ?m] =>
      let r := eval vm_compute in (resolve c m) in
      change (resolve c m) with r
  | |- context [available_expr ?c] =>
      let r := eval vm_compute in (available_expr c) in
      change (available_expr c) with r
  end; cbv iota beta.

Lemma instantiable_cases c :
  instantiable c = true ->
  c = cNumberFilter \/ c = cCharFilter \/ c = cInFilter \/
  c = cDateTimeFilter \/ c = cDateFilter \/ c = cNumberRangeFilter.
Proof. destruct c; vm_compute; intros; try discriminate; tauto. Qed.

Lemma check_lookup_exr_eq self w :
  instantiable (fclass (heap w self)) = true ->
  _check_lookup_exr self w =
    if lookup_allowed (heap w self) then (Ok tt, w)
    else (Raise (invalid_lookup (heap w self)), w).
Proof.
  intros Hc. unfold _check_lookup_exr, lookup_allowed, invalid_lookup. unfold_m.
  destruct (instantiable_cases _ Hc) as [E|[E|[E|[E|[E|E]]]]];
    rewrite E; eval_class; unfold BaseFieldFilter._check_lookup_exr; unfold_m;
    rewrite E; eval_class; destruct (bool_decide _); reflexivity.
Qed.

Lemma to_internal_value_eq self w :
  instantiable (fclass (heap w self)) = true ->
  to_internal_value self w =
    match type_error (fclass (heap w self)) (value (heap w self)) with
    | None => (Ok tt, w)
    | Some e => (Raise e, w)
    end.
Proof.
  intros Hc. unfold to_internal_value, type_error. unfold_m.
  destruct (instantiable_cases _ Hc) as [E|[E|[E|[E|[E|E]]]]];
    rewrite E; eval_class;
    unfold NumberFilter.to_internal_value, CharFilter.to_internal_value,
      InFilter.to_internal_value, DateTimeFilter.to_internal_value,
      DateFilter.to_internal_value, NumberRangeFilter.to_internal_value;
    unfold_m.
  - destruct (py_int _) as [|[]]; reflexivity.
  - reflexivity.
  - destruct (isinstance_list _); reflexivity.
  - destruct (isinstance_datetime _); reflexivity.
  - destruct (isinstance_date _); reflexivity.
  - destruct (py_int _) as [|[]]; reflexivity.
Qed.

Lemma kwargs_builder_eq self v w :
  _kwargs_builder self v w =
    (Ok {[ kwargs_key (heap w self) := v ]},
     match builder_prints (heap w self) with
     | [] => w
     | ps => print_to w ps
     end).
Proof.
  unfold _kwargs_builder, kwargs_key, builder_prints. unfold_m.
  destruct (fclass (heap w self)); eval_class;
    unfold BaseFieldFilter._kwargs_builder, DateTimeFilter._kwargs_builder,
      DateFilter._kwargs_builder, NumberRangeFilter._kwargs_builder; unfold_m;
    destruct (lookup_expr (heap w self)); reflexivity.
Qed.

Lemma resolve_filter_queryset c :
  instantiable c = true -> resolve c m_filter_queryset = Some c.
Proof. destruct c; vm_compute; intros; try discriminate; reflexivity. Qed.

Lemma fq_simple self qs v w :
  let f := heap w self in
  fclass f ∈ [cNumberFilter; cCharFilter; cDateTimeFilter; cDateFilter] ->
  filter_queryset self qs v w =
    if is_none (value f) then (Ok qs, w)
    else if lookup_allowed f then
      match type_error (fclass f) (value f) with
      | None => (Ok (qs_filter qs {[ kwargs_key f := v ]}), w)
      | Some e => (Raise e, w)
      end
    else (Raise (invalid_lookup f), w).
Proof.
  intros f Hc. subst f.
  assert (Hi : instantiable (fclass (heap w self)) = true).
  { set_unfold. destruct Hc as [E|[E|[E|[E|[]]]]]; rewrite E; reflexivity. }
  assert (Hb : builder_prints (heap w self) = []).
  { unfold builder_prints. set_unfold.
    destruct Hc as [E|[E|[E|[E|[]]]]]; rewrite E; reflexivity. }
  pose proof (check_lookup_exr_eq _ _ Hi) as Hchk.
  pose proof (to_internal_value_eq _ _ Hi) as Htiv.
  unfold filter_queryset. unfold_m. set_unfold.
  destruct Hc as [E|[E|[E|[E|[]]]]]; rewrite E in *; eval_class;
    unfold NumberFilter_filter_queryset, CharFilter_filter_queryset,
      DateTimeFilter_filter_queryset, DateFilter_filter_queryset; unfold_m;
    (destruct (is_none _); [reflexivity|]);
    rewrite Hchk;
    (destruct (lookup_allowed _); [|reflexivity]);
    rewrite Htiv;
    (destruct (type_error _ _); [reflexivity|]);
    rewrite kwargs_builder_eq, Hb; reflexivity.
Qed.

Lemma fq_in self qs v w :
  let f := heap w self in
  fclass f = cInFilter ->
  filter_queryset self qs v w =
    if is_none (value f) then (Ok qs, w)
    else if isinstance_list (value f) then
      (Ok (qs_filter qs {[ (field_name f +:+ "__") +:+ "in" := v ]}), force_in w self)
    else (Raise (TypeError "Invalid type"), force_in w self).
Proof.
  intros f E. subst f. unfold filter_queryset. unfold_m. rewrite E. eval_class.
  unfold InFilter_filter_queryset. unfold_m.
  destruct (is_none _); [reflexivity|].
  fold (force_in w self).
  assert (Hf : heap (force_in w self) self = set_lookup_expr (heap w self) (Some "in")).
  { unfold force_in; simpl. apply fn_lookup_insert. }
  rewrite to_internal_value_eq; rewrite Hf; [|simpl; rewrite E; reflexivity].
  simpl fclass. simpl value. rewrite ?E. unfold type_error.
  destruct (isinstance_list _); [|reflexivity].
  rewrite kwargs_builder_eq, Hf. unfold builder_prints, kwargs_key. simpl. rewrite E. reflexivity.
Qed.

Lemma fq_range self qs v w :
  let f := heap w self in
  fclass f = cNumberRangeFilter ->
  filter_queryset self qs v w =
    if is_none (value f) then (Ok qs, w)
    else if lookup_allowed f then
      match type_error (fclass f) (value f) with
      | None =>
          let kwargs := {[ kwargs_key f := v ]} in
          let q := qs_filter qs kwargs in
          match db w q with
          | None => (Ok q, print_to (range_awaited w f kwargs q) [PrRows q])
          | Some (cls, msg) =>
              (Raise (QueryError cls msg), range_awaited w f kwargs q)
          end
      | Some e => (Raise e, w)
      end
    else (Raise (invalid_lookup f), w).
Proof.
  intros f E. subst f.
  assert (Hi : instantiable (fclass (heap w self)) = true) by (rewrite E; reflexivity).
  pose proof (check_lookup_exr_eq _ _ Hi) as Hchk.
  pose proof (to_internal_value_eq _ _ Hi) as Htiv.
  unfold filter_queryset. unfold_m. rewrite E in *. eval_class.
  unfold NumberRangeFilter_filter_queryset. unfold_m.
  destruct (is_none _); [reflexivity|].
  rewrite Hchk.
  destruct (lookup_allowed _); [|reflexivity].
  rewrite Htiv.
  destruct (type_error _ _); [reflexivity|].
  rewrite kwargs_builder_eq.
  unfold range_awaited, builder_prints, print_to. rewrite E.
  destruct (lookup_expr (heap w self)); cbn;
    destruct (db w _) as [[cls msg]|]; cbn; rewrite <- ?app_assoc; reflexivity.
Qed.

Lemma is_none_false v : v <> VNone -> is_none v = false.
Proof. by destruct v. Qed.

Lemma is_none_cases v : v = VNone \/ v <> VNone.
Proof. destruct v; (by left) || (by right). Qed.

Lemma int_of_str_raises s e :
  int_of_str s = Raise e -> exists msg, e = ValueError msg.
Proof.
  unfold int_of_str, invalid_literal, exceeds_limit.
  destruct (drop_sign _) as [|c body]; [intros [= <-]; eauto|].
  destruct (Ascii.eqb c "_"); [intros [= <-]; eauto|].
  destruct (scan_digits _ _ _) as [[digits rest]|]; [|intros [= <-]; eauto].
  destruct (_ <? _)%nat; [intros [= <-]; eauto|].
  destruct (_ =? _)%nat; [intros [= <-]; eauto|].
  destruct (lstrip rest); [done|intros [= <-]; eauto].
Qed.

Lemma type_error_not_Exception c v msg : type_error c v <> Some (Exception_ msg).
Proof.
  destruct c; simpl; try done; destruct v; simpl; try done;
    destruct (int_of_str s) as [|e] eqn:Hs; try done;
    apply int_of_str_raises in Hs as [m ->]; done.
Qed.

Lemma await_result_not_Exception w c q msg :
  await_result w c q <> Raise (Exception_ msg).
Proof. destruct c; simpl; try done; by destruct (db w q) as [[? ?]|]. Qed.

Lemma await_result_other w c q :
  c <> cNumberRangeFilter -> await_result w c q = Ok q.
Proof. by destruct c. Qed.

Lemma available_expr_checking c :
  c ∈ checking_classes -> exists allowed, available_expr c = Some allowed.
Proof.
  unfold checking_classes. set_unfold.
  intros [->|[->|[->|[->|[->|[]]]]]]; eexists; reflexivity.
Qed.

(** The outcome of the type check, by the shape of the value. *)
Lemma type_error_shape c v :
  instantiable c = true ->
  type_error c v =
    if wrong_type c v then Some (TypeError "Invalid type")
    else match int_refusal c v with
         | Some msg => Some (ValueError msg)
         | None => None
         end.
Proof.
  intros Hc.
  destruct (instantiable_cases _ Hc) as [->|[->|[->|[->|[->| ->]]]]];
    destruct v; simpl; try reflexivity;
    destruct (int_of_str s) as [|e] eqn:Hs; try reflexivity;
    apply int_of_str_raises in Hs as [m ->]; reflexivity.
Qed.

(** In one statement for all six classes: the result of [filter_queryset]
    on a filter with a value. *)
Lemma fq_result self qs v w :
  let f := heap w self in
  instantiable (fclass f) = true ->
  value f <> VNone ->
  fst (filter_queryset self qs v w) =
    if (bool_decide (fclass f = cInFilter) || lookup_allowed f)
    then match type_error (fclass f) (value f) with
         | None => await_result w (fclass f)
                     (qs_filter qs {[ predicate_key f := v ]})
         | Some e => Raise e
         end
    else Raise (invalid_lookup f).
Proof.
  intros f Hc Hv. subst f. apply is_none_false in Hv.
  destruct (instantiable_cases _ Hc) as [E|[E|[E|[E|[E|E]]]]].
  1, 2, 4, 5:
    assert (Hk : predicate_key (heap w self) = kwargs_key (heap w self))
      by (unfold predicate_key; by rewrite E);
    assert (Hb : bool_decide (fclass (heap w self) = cInFilter) = false)
      by (apply bool_decide_eq_false; by rewrite E);
    rewrite Hk, Hb, orb_false_l;
    rewrite fq_simple by (rewrite E; set_solver); rewrite Hv;
    rewrite await_result_other by (by rewrite E);
    destruct (lookup_allowed _); [destruct (type_error _ _)|]; reflexivity.
  - assert (Hb : bool_decide (fclass (heap w self) = cInFilter) = true)
      by (by apply bool_decide_eq_true).
    rewrite Hb, orb_true_l.
    rewrite fq_in by done. rewrite Hv. unfold predicate_key. rewrite E.
    unfold type_error. destruct (isinstance_list _); reflexivity.
  - assert (Hk : predicate_key (heap w self) = kwargs_key (heap w self))
      by (unfold predicate_key; by rewrite E).
    assert (Hb : bool_decide (fclass (heap w self) = cInFilter) = false)
      by (apply bool_decide_eq_false; by rewrite E).
    rewrite Hk, Hb, orb_false_l.
    rewrite fq_range by done. rewrite Hv.
    destruct (lookup_allowed _); [|reflexivity].
    destruct (type_error _ _); [reflexivity|].
    rewrite E. cbn. by destruct (db w _) as [[cls msg]|].
Qed.

(** InFilter takes any [lookup_expr]: it is overwritten, never checked. *)
Lemma fq_in_ignores_lookup self qs v w :
  let f := heap w self in
  fclass f = cInFilter ->
  isinstance_list (value f) = true ->
  fst (filter_queryset self qs v w)
    = Ok (qs_filter qs {[ (field_name f +:+ "__") +:+ "in" := v ]}) /\
  lookup_expr (heap (snd (filter_queryset self qs v w)) self) = Some "in".
Proof.
  intros f E Hl. subst f. rewrite fq_in by done. rewrite Hl.
  destruct (value (heap w self)); try discriminate. simpl.
  split; [done|]. by rewrite fn_lookup_insert.
Qed.

(** What a constructor returns is well formed. *)
Lemma new_well_formed c a f : new c a = Ok f -> well_formed f = true.
Proof.
  unfold new.
  destruct c; vm_compute abstractmethods; cbv iota beta; try discriminate;
    intros [= <-]; reflexivity.
Qed.

(** *** Class dictionaries *)

Lemma dict_set_keys {A} (k : string) (v : A) (d : list (string * A)) (x : string) :
  x ∈ (dict_set k v d).*1 <-> x = k \/ x ∈ d.*1.
Proof.
  induction d as [|[k' v'] d IH]; simpl.
  - set_solver.
  - destruct (String.eqb_spec k' k) as [->|Hne]; simpl.
    + rewrite !elem_of_cons. tauto.
    + rewrite !elem_of_cons, IH. tauto.
Qed.

Lemma dict_set_NoDup {A} (k : string) (v : A) (d : list (string * A)) :
  NoDup d.*1 -> NoDup (dict_set k v d).*1.
Proof.
  induction d as [|[k' v'] d IH]; simpl; intros Hd.
  - apply NoDup_singleton.
  - apply list.NoDup_cons in Hd as [Hk' Hd].
    destruct (String.eqb_spec k' k) as [->|Hne]; simpl.
    + by apply list.NoDup_cons.
    + apply list.NoDup_cons. split; [|by apply IH].
      rewrite dict_set_keys. intros [?|?]; [congruence|done].
Qed.

Lemma class_dict_NoDup (c : FilterSetClass) : NoDup (class_dict c).*1.
Proof.
  unfold class_dict.
  assert (H : forall (l : list (string * Attr)) d, NoDup d.*1 ->
            NoDup (fold_left (fun d kv => dict_set kv.1 kv.2 d) l d).*1).
  { induction l as [|kv l IH]; simpl; intros d Hd; [done|].
    apply IH. by apply dict_set_NoDup. }
  apply H. simpl. apply NoDup_nil_2.
Qed.

(** *** [check_fields_appearance] *)

Lemma filter_field_names_elem (attr : list (string * Attr)) (w : World) (x : string) :
  x ∈ BaseFilterSet.filter_field_names attr w <->
  exists key r, (key, AFilter r) ∈ attr /\ field_name (heap w r) = x.
Proof.
  induction attr as [|[k [r|]] attr IH]; simpl.
  - set_solver.
  - rewrite elem_of_cons, IH. split.
    + intros [->|(key & r' & Hin & Hx)].
      * exists k, r. split; [left|done].
      * exists key, r'. split; [by right|done].
    + intros (key & r' & Hin & Hx). apply elem_of_cons in Hin as [Heq|Hin].
      * left. by inversion Heq; subst.
      * right. eauto.
  - rewrite IH. split.
    + intros (key & r' & Hin & Hx). exists key, r'. split; [by right|done].
    + intros (key & r' & Hin & Hx). apply elem_of_cons in Hin as [Heq|Hin];
        [done|eauto].
Qed.

Lemma check_loop_spec (ffs mfs : list string) :
  (BaseFilterSet.check_loop ffs mfs = Ok tt /\ forall x, x ∈ ffs -> x ∈ mfs) \/
  (BaseFilterSet.check_loop ffs mfs
     = Raise (Exception_ "this field does not belong to model") /\
   exists x, x ∈ ffs /\ x ∉ mfs).
Proof.
  induction ffs as [|x ffs IH]; simpl.
  - left. split; [done|]. set_solver.
  - case_bool_decide as Hx.
    + destruct IH as [[-> H]|[-> (y & Hy & Hn)]].
      * left. split; [done|]. set_solver.
      * right. split; [done|]. exists y. set_solver.
    + right. split; [done|]. exists x. set_solver.
Qed.

(** *** [to_dependencies] *)

Lemma well_formed_instantiable f :
  well_formed f = true -> instantiable (fclass f) = true.
Proof. unfold well_formed. by intros [? _]%andb_true_iff. Qed.

Lemma annotations_get_value_ok f :
  well_formed f = true -> exists a, annotations_get_value f = Ok a.
Proof.
  unfold well_formed, annotations_get_value.
  intros [Hc Ha]%andb_true_iff.
  destruct (instantiable_cases _ Hc) as [E|[E|[E|[E|[E|E]]]]];
    rewrite E in *; try (eexists; reflexivity).
  apply bool_decide_eq_true in Ha as [t Ht].
  change (resolve cInFilter m_annotations) with (Some cInFilter).
  rewrite Ht. eauto.
Qed.

Lemma add_fields_single (D : DependenciesClass) (key : string) (a : option PyType) :
  exists fi,
    add_fields D [(key, DTuple [BaseFilterSet.ann_obj a; OVal VNone])] =
      Ok {| dep_name := dep_name D;
            model_fields := <[key := fi]> ∅ ∪ model_fields D |}.
Proof. destruct a as [[]|]; eexists; reflexivity. Qed.

Lemma deps_loop_raises attr w D e :
  BaseFilterSet.deps_loop attr w D = Raise e -> exists msg, e = AttributeError msg.
Proof.
  revert D. induction attr as [|[k [r|]] attr IH]; simpl; intros D; [done| |by apply IH].
  destruct (annotations_get_value (heap w r)) as [a|e'] eqn:Ha.
  - destruct (add_fields_single D k a) as [fi ->]. apply IH.
  - intros [= <-]. revert Ha. unfold annotations_get_value.
    destruct (resolve _ _).
    + destruct (_annotations _); [done|]. intros [= <-]. eauto.
    + destruct (first_some _ _); [done|]. intros [= <-]. eauto.
Qed.

Lemma deps_loop_ok (attr : list (string * Attr)) (w : World) (D : DependenciesClass) :
  (forall k r, (k, AFilter r) ∈ attr -> well_formed (heap w r) = true) ->
  exists D', BaseFilterSet.deps_loop attr w D = Ok D'.
Proof.
  revert D. induction attr as [|[k a] attr IH]; simpl; intros D Hwf.
  - by exists D.
  - assert (Hwf' : forall k r, (k, AFilter r) ∈ attr -> well_formed (heap w r) = true).
    { intros k' r' Hin. apply (Hwf k' r'). by right. }
    destruct a as [r|]; [|by apply IH].
    destruct (annotations_get_value_ok (heap w r)) as [a ->];
      [apply (Hwf k r); by left|].
    destruct (add_fields_single D k a) as [fi ->]. by apply IH.
Qed.

Lemma model_field_names_elem (m : Model) (x : string) :
  x ∈ model_field_names m <->
  exists k fld, fields_map m !! k = Some fld /\ model_field_name fld = x.
Proof.
  unfold model_field_names. rewrite list_elem_of_fmap. split.
  - intros ((k & fld) & -> & Hin%elem_of_map_to_list). eauto.
  - intros (k & fld & Hk & <-). exists (k, fld). split; [done|].
    by apply elem_of_map_to_list.
Qed.

(** *** The loop of [FilterSet.filter_queryset] *)

Lemma fq_frame (self : ref) (qs : QuerySet) (v : PyVal) (w : World) (r : ref) :
  let h' := heap (snd (filter_queryset self qs v w)) in
  fclass (h' r) = fclass (heap w r) /\
  field_name (h' r) = field_name (heap w r) /\
  value (h' r) = value (heap w r) /\
  (fclass (heap w r) <> cInFilter -> lookup_expr (h' r) = lookup_expr (heap w r)).
Proof.
  simpl.
  destruct (instantiable (fclass (heap w self))) eqn:Hc.
  - destruct (instantiable_cases _ Hc) as [E|[E|[E|[E|[E|E]]]]].
    1, 2, 4, 5: rewrite fq_simple by (rewrite E; set_solver);
      destruct (is_none _); [done|]; destruct (lookup_allowed _); [|done];
      by destruct (type_error _ _).
    + rewrite fq_in by done.
      destruct (is_none _); [done|].
      destruct (isinstance_list _); cbn [snd]; unfold force_in; cbn [heap];
        (destruct (decide (self = r)) as [->|Hne];
         [rewrite fn_lookup_insert; simpl; tauto
         |rewrite fn_lookup_insert_ne by done; tauto]).
    + rewrite fq_range by done.
      destruct (is_none _); [done|]. destruct (lookup_allowed _); [|done].
      destruct (type_error _ _); [done|].
      cbv zeta. by destruct (db w _) as [[cls msg]|].
  - unfold filter_queryset. unfold_m.
    destruct (fclass (heap w self)) eqn:E; try discriminate; eval_class; done.
Qed.

Lemma fq_db (self : ref) (qs : QuerySet) (v : PyVal) (w : World) :
  db (snd (filter_queryset self qs v w)) = db w.
Proof.
  destruct (instantiable (fclass (heap w self))) eqn:Hc.
  - destruct (instantiable_cases _ Hc) as [E|[E|[E|[E|[E|E]]]]].
    1, 2, 4, 5: rewrite fq_simple by (rewrite E; set_solver);
      destruct (is_none _); [done|]; destruct (lookup_allowed _); [|done];
      by destruct (type_error _ _).
    + rewrite fq_in by done.
      destruct (is_none _); [done|]. by destruct (isinstance_list _).
    + rewrite fq_range by done.
      destruct (is_none _); [done|]. destruct (lookup_allowed _); [|done].
      destruct (type_error _ _); [done|].
      cbv zeta. by destruct (db w _) as [[cls msg]|].
  - unfold filter_queryset. unfold_m.
    destruct (fclass (heap w self)) eqn:E; try discriminate; eval_class; done.
Qed.

Lemma await_result_answers w c q :
  (forall q, db w q = None) -> await_result w c q = Ok q.
Proof. intros Hdb. destruct c; simpl; try done. by rewrite Hdb. Qed.

Lemma apply_loop_step k r rest params qs w v :
  params !! k = Some v ->
  FilterSet.apply_loop ((k, AFilter r) :: rest) params qs w =
    match filter_queryset r qs v (assign w params r v) with
    | (Ok qs', w3) => FilterSet.apply_loop rest params qs' w3
    | (Raise e, w3) => (Raise e, w3)
    end.
Proof.
  intros Hk. simpl. rewrite Hk. unfold_m. simpl.
  rewrite fn_lookup_insert. simpl. reflexivity.
Qed.

Lemma apply_loop_skip k r rest params qs w :
  params !! k = None ->
  FilterSet.apply_loop ((k, AFilter r) :: rest) params qs w
  = FilterSet.apply_loop rest params qs w.
Proof. intros Hk. simpl. by rewrite Hk. Qed.

Lemma assign_heap_self w params r v :
  heap (assign w params r v) r = set_value (heap w r) v.
Proof. unfold assign; simpl. apply fn_lookup_insert. Qed.

Lemma assign_heap_other w params r v r' :
  r <> r' -> heap (assign w params r v) r' = heap w r'.
Proof. intros Hne. unfold assign; simpl. by apply fn_lookup_insert_ne. Qed.

Lemma assign_static w params r v : same_static (heap w) (heap (assign w params r v)).
Proof.
  intros r'. destruct (decide (r = r')) as [->|Hne].
  - rewrite assign_heap_self. done.
  - rewrite assign_heap_other by done. done.
Qed.

Lemma same_static_trans h1 h2 h3 :
  same_static h1 h2 -> same_static h2 h3 -> same_static h1 h3.
Proof.
  intros H12 H23 r. destruct (H12 r) as (Hc & Hf & Hl).
  destruct (H23 r) as (Hc' & Hf' & Hl').
  split; [congruence|]. split; [congruence|].
  intros Hne. rewrite Hl' by congruence. by apply Hl.
Qed.

Lemma fq_static self qs v w :
  same_static (heap w) (heap (snd (filter_queryset self qs v w))).
Proof. intros r. pose proof (fq_frame self qs v w r). simpl in *. tauto. Qed.

Lemma accepts_static h h' r v :
  same_static h h' -> accepts (h' r) v = accepts (h r) v.
Proof.
  intros Hs. destruct (Hs r) as (Hc & Hf & Hl).
  unfold accepts, lookup_allowed. rewrite Hc.
  destruct (decide (fclass (h r) = cInFilter)) as [E|Hne].
  - by rewrite !(bool_decide_eq_true_2 _ E).
  - by rewrite (Hl Hne).
Qed.

Lemma predicate_key_static h h' r :
  same_static h h' -> predicate_key (h' r) = predicate_key (h r).
Proof.
  intros Hs. destruct (Hs r) as (Hc & Hf & Hl).
  unfold predicate_key, kwargs_key. rewrite Hc.
  destruct (decide (fclass (h r) = cInFilter)) as [E|Hne].
  - rewrite E. simpl. by rewrite Hf.
  - rewrite (Hl Hne), Hf. by destruct (fclass (h r)).
Qed.

(** One application, on a descriptor that has just been assigned [v]. *)
Lemma fq_applied r qs v w params :
  instantiable (fclass (heap w r)) = true ->
  (v <> VNone -> accepts (heap w r) v = true) ->
  (forall q, db w q = None) ->
  fst (filter_queryset r qs v (assign w params r v)) =
    Ok (if is_none v then qs
        else qs_filter qs {[ predicate_key (heap w r) := v ]}).
Proof.
  intros Hc Hacc Hdb.
  pose proof (assign_static w params r v) as Hs.
  assert (Hc' : instantiable (fclass (heap (assign w params r v) r)) = true).
  { by rewrite assign_heap_self. }
  assert (Hv : value (heap (assign w params r v) r) = v).
  { by rewrite assign_heap_self. }
  destruct (is_none_cases v) as [->|Hne].
  - destruct (instantiable_cases _ Hc') as [E|[E|[E|[E|[E|E]]]]].
    1, 2, 4, 5: rewrite fq_simple by (rewrite E; set_solver); by rewrite Hv.
    + rewrite fq_in by done. by rewrite Hv.
    + rewrite fq_range by done. by rewrite Hv.
  - rewrite (is_none_false _ Hne).
    rewrite fq_result by (done || by rewrite Hv).
    specialize (Hacc Hne). rewrite <- (accepts_static _ _ r v Hs) in Hacc.
    unfold accepts in Hacc.
    apply andb_true_iff in Hacc as [[Hl Hw]%andb_true_iff Hb].
    rewrite Hl, Hv, (type_error_shape _ _ Hc').
    apply negb_true_iff in Hw. apply bool_decide_eq_true in Hb.
    rewrite Hw, Hb.
    rewrite await_result_answers by done.
    by rewrite (predicate_key_static _ _ r Hs).
Qed.

Lemma apply_loop_ok (attr : list (string * Attr)) (params : gmap string PyVal)
    (h0 : ref -> FieldFilter) :
  (forall k r, (k, AFilter r) ∈ attr -> instantiable (fclass (h0 r)) = true) ->
  (forall k r v, (k, AFilter r) ∈ attr -> params !! k = Some v -> v <> VNone ->
     accepts (h0 r) v = true) ->
  forall w qs, same_static h0 (heap w) -> (forall q, db w q = None) ->
  exists w',
    FilterSet.apply_loop attr params qs w =
      (Ok {| qs_model := qs_model qs;
             qs_filters := qs_filters qs ++ chained attr params h0 |}, w').
Proof.
  induction attr as [|[k [r|]] attr IH]; intros Hinst Hacc w qs Hs Hdb.
  - exists w. simpl. rewrite app_nil_r. by destruct qs.
  - assert (Hinst' : forall k r, (k, AFilter r) ∈ attr ->
              instantiable (fclass (h0 r)) = true).
    { intros k' r' Hin. apply (Hinst k' r'). by right. }
    assert (Hacc' : forall k r v, (k, AFilter r) ∈ attr ->
              params !! k = Some v -> v <> VNone -> accepts (h0 r) v = true).
    { intros k' r' v' Hin. apply (Hacc k' r' v'). by right. }
    destruct (params !! k) as [v|] eqn:Hk.
    + rewrite (apply_loop_step _ _ _ _ _ _ _ Hk).
      pose proof (fq_applied r qs v w params) as Hfst.
      destruct (Hs r) as (Hc & _).
      assert (Hhere : (k, AFilter r) ∈ (k, AFilter r) :: attr) by (by left).
      rewrite Hc in Hfst. specialize (Hfst (Hinst k r Hhere)).
      rewrite (accepts_static _ _ r v Hs) in Hfst.
      specialize (Hfst (Hacc k r v Hhere Hk) Hdb).
      rewrite (predicate_key_static _ _ r Hs) in Hfst.
      pose proof (fq_static r qs v (assign w params r v)) as Hs3.
      pose proof (fq_db r qs v (assign w params r v)) as Hdb3.
      destruct (filter_queryset r qs v (assign w params r v)) as [res w3].
      cbn [fst snd] in Hfst, Hs3, Hdb3. subst res.
      destruct (IH Hinst' Hacc' w3
                  (if is_none v then qs
                   else qs_filter qs {[ predicate_key (h0 r) := v ]}))
        as (w' & ->).
      { eapply same_static_trans; [exact Hs|].
        eapply same_static_trans; [apply (assign_static w params r v)|exact Hs3]. }
      { intros q. rewrite Hdb3. apply Hdb. }
      exists w'. simpl. rewrite Hk.
      destruct (is_none v); [done|]. simpl. by rewrite <- app_assoc.
    + rewrite (apply_loop_skip _ _ _ _ _ _ Hk).
      destruct (IH Hinst' Hacc' w qs Hs Hdb) as (w' & ->).
      exists w'. simpl. by rewrite Hk.
  - simpl.
    apply IH; [| |done|done].
    + intros k' r' Hin. apply (Hinst k' r'). by right.
    + intros k' r' v' Hin. apply (Hacc k' r' v'). by right.
Qed.

Lemma apply_loop_values (attr : list (string * Attr)) (params : gmap string PyVal) :
  forall w qs q' w',
    FilterSet.apply_loop attr params qs w = (Ok q', w') ->
    forall r, value (heap w' r) = last_assigned attr params r (value (heap w r)).
Proof.
  induction attr as [|[k [r0|]] attr IH]; intros w qs q' w' Hrun r.
  - simpl in Hrun. unfold_m. by inversion Hrun.
  - destruct (params !! k) as [v|] eqn:Hk.
    + rewrite (apply_loop_step _ _ _ _ _ _ _ Hk) in Hrun.
      pose proof (fq_frame r0 qs v (assign w params r0 v) r) as Hfr.
      destruct (filter_queryset r0 qs v (assign w params r0 v)) as [[qs1|e] w3];
        [|done].
      cbn [snd] in Hfr. destruct Hfr as (_ & _ & Hval & _).
      rewrite (IH _ _ _ _ Hrun r), Hval. cbn [last_assigned]. rewrite Hk.
      destruct (decide (r0 = r)) as [->|Hne].
      * by rewrite assign_heap_self.
      * by rewrite assign_heap_other.
    + rewrite (apply_loop_skip _ _ _ _ _ _ Hk) in Hrun.
      rewrite (IH _ _ _ _ Hrun r). simpl. rewrite Hk. by destruct (decide _).
  - simpl in Hrun. by rewrite (IH _ _ _ _ Hrun r).
Qed.

Lemma last_assigned_agree attr params r v cur :
  (forall k' v', (k', AFilter r) ∈ attr -> params !! k' = Some v' -> v' = v) ->
  cur = v \/ (exists k, (k, AFilter r) ∈ attr /\ is_Some (params !! k)) ->
  last_assigned attr params r cur = v.
Proof.
  revert cur. induction attr as [|[k [r0|]] attr IH]; intros cur Hall Hcur; simpl.
  - destruct Hcur as [?|(k & []%elem_of_nil & _)]. done.
  - assert (Hall' : forall k' v', (k', AFilter r) ∈ attr ->
              params !! k' = Some v' -> v' = v).
    { intros k' v' Hin. apply Hall. by right. }
    apply IH; [done|].
    destruct Hcur as [->|(k' & [[= -> ->]|Hin]%elem_of_cons & [v' Hv'])].
    + left. destruct (decide (r0 = r)) as [->|]; [|done].
      destruct (params !! k) as [v'|] eqn:Hk; [|done].
      apply (Hall k v'); [by left|done].
    + left. rewrite decide_True by done. rewrite Hv'.
      apply (Hall k v'); [by left|done].
    + right. eauto.
  - apply IH.
    + intros k' v' Hin. apply Hall. by right.
    + destruct Hcur as [?|(k' & [[=]|Hin]%elem_of_cons & Hs)]; [by left|].
      right. eauto.
Qed.

Lemma last_assigned_untouched attr params r cur :
  (forall k, (k, AFilter r) ∈ attr -> params !! k = None) ->
  last_assigned attr params r cur = cur.
Proof.
  revert cur. induction attr as [|[k [r0|]] attr IH]; intros cur Hnone; simpl.
  - done.
  - rewrite IH by (intros k' Hin; apply Hnone; by right).
    destruct (decide (r0 = r)) as [->|]; [|done].
    by rewrite (Hnone k) by (by left).
  - apply IH. intros k' Hin. apply Hnone. by right.
Qed.

Lemma filter_set_queryset_eq (self : FilterSetInstance) (w : World) :
  FilterSet.filter_queryset self w =
    match model (self_class self) with
    | None => (Raise (AttributeError "'NoneType' object has no attribute 'all'"), w)
    | Some m =>
        FilterSet.apply_loop (class_dict (self_class self)) (query_params self)
          {| qs_model := model_name m; qs_filters := [] |} w
    end.
Proof.
  unfold FilterSet.filter_queryset, BaseFilterSet.get_queryset. unfold_m.
  by destruct (model (self_class self)).
Qed.

Lemma apply_loop_no_params (attr : list (string * Attr)) (qs : QuerySet) (w : World) :
  FilterSet.apply_loop attr ∅ qs w = (Ok qs, w).
Proof.
  induction attr as [|[k [r|]] attr IH]; simpl; [done| |done].
  by rewrite lookup_empty.
Qed.

Lemma same_static_refl h : same_static h h.
Proof. by intros r. Qed.

(** *** Further facts on single filters *)

(** The whole outcome of [filter_queryset] for a class that cannot be
    instantiated: the inherited abstract method raises. *)
Lemma fq_abstract self qs v w :
  instantiable (fclass (heap w self)) = false ->
  filter_queryset self qs v w = (Raise NotImplementedError, w).
Proof.
  intros Hc. unfold filter_queryset. unfold_m.
  destruct (fclass (heap w self)) eqn:E; try discriminate; eval_class; done.
Qed.

Lemma fq_world_cases self qs v w :
  let w' := snd (filter_queryset self qs v w) in
  w' = w \/
  (fclass (heap w self) = cInFilter /\ w' = force_in w self) \/
  (fclass (heap w self) = cNumberRangeFilter /\ heap w' = heap w).
Proof.
  simpl. destruct (instantiable (fclass (heap w self))) eqn:Hc.
  - destruct (instantiable_cases _ Hc) as [E|[E|[E|[E|[E|E]]]]].
    1, 2, 4, 5: left; rewrite fq_simple by (rewrite E; set_solver);
      destruct (is_none _); [done|]; destruct (lookup_allowed _); [|done];
      by destruct (type_error _ _).
    + rewrite fq_in by done. destruct (is_none _); [by left|].
      right; left. by destruct (isinstance_list _).
    + rewrite fq_range by done. destruct (is_none _); [by left|].
      destruct (lookup_allowed _); [|by left].
      destruct (type_error _ _); [by left|].
      right; right. split; [done|].
      cbv zeta. by destruct (db w _) as [[cls msg]|].
  - left. by rewrite fq_abstract.
Qed.

Lemma fq_shape self qs v w :
  same_shape (heap w) (heap (snd (filter_queryset self qs v w))).
Proof.
  destruct (fq_world_cases self qs v w) as [->|[[E ->]|[E ->]]];
    intros r; [done| |done].
  unfold force_in; cbn [heap].
  destruct (decide (self = r)) as [->|Hne];
    [rewrite fn_lookup_insert; simpl; tauto
    |rewrite fn_lookup_insert_ne by done; tauto].
Qed.

Lemma fq_none self qs v w :
  instantiable (fclass (heap w self)) = true ->
  value (heap w self) = VNone ->
  filter_queryset self qs v w = (Ok qs, w).
Proof.
  intros Hc Hv.
  destruct (instantiable_cases _ Hc) as [E|[E|[E|[E|[E|E]]]]].
  1, 2, 4, 5: rewrite fq_simple by (rewrite E; set_solver); by rewrite Hv.
  - rewrite fq_in by done. by rewrite Hv.
  - rewrite fq_range by done. by rewrite Hv.
Qed.

(** *** [Dependencies.add_fields] *)

Lemma add_fields_loop_step name d rest acc m :
  add_fields_loop ((name, d) :: rest) acc = Ok m ->
  exists t,
    add_fields_loop rest (<[name := {| annotation := t; default := VNone |}]> acc)
      = Ok m /\
    match d with
    | DTuple [a; _] => Optional_ a = Ok t
    | DTuple _ => False
    | DDefault _ => t = TNoneType
    end.
Proof.
  simpl. destruct d as [[|a [|dv [|x l]]]|v]; try done.
  - destruct (truthy a); destruct (Optional_ a) as [t|e]; try done;
      intros H; exists t; by split.
  - intros H. exists TNoneType. by split.
Qed.

Lemma add_fields_loop_spec defs : forall acc m,
  add_fields_loop defs acc = Ok m ->
  (forall name, name ∉ defs.*1 -> m !! name = acc !! name) /\
  (forall name, name ∈ defs.*1 ->
     exists fi, m !! name = Some fi /\ default fi = VNone) /\
  (NoDup defs.*1 ->
   forall name d, (name, d) ∈ defs ->
     exists t, m !! name = Some {| annotation := t; default := VNone |} /\
       match d with
       | DTuple [a; _] => Optional_ a = Ok t
       | DTuple _ => False
       | DDefault _ => t = TNoneType
       end).
Proof.
  induction defs as [|[name d] defs IH]; intros acc m Hrun.
  - simpl in Hrun. inversion Hrun; subst. split; [done|].
    split; [by intros name ?%elem_of_nil|]. by intros _ name d ?%elem_of_nil.
  - apply add_fields_loop_step in Hrun as (t & Hrun & Ht).
    destruct (IH _ _ Hrun) as (Hout & Hin & Hnd).
    split; [|split].
    + intros name' Hnot. cbn in Hnot. apply not_elem_of_cons in Hnot as [Hne Hnot].
      rewrite (Hout name' Hnot). by rewrite lookup_insert_ne.
    + intros name' Hel. cbn in Hel.
      destruct (decide (name' ∈ defs.*1)) as [Hd|Hd]; [by apply Hin|].
      apply elem_of_cons in Hel as [->|Hel]; [|done].
      rewrite (Hout name Hd), lookup_insert_eq. eauto.
    + intros Hnodup name' d' Hel. cbn in Hnodup.
      apply list.NoDup_cons in Hnodup as [Hfresh Hnodup].
      apply elem_of_cons in Hel as [[= -> ->]|Hel].
      * exists t. split; [|done]. by rewrite (Hout name Hfresh), lookup_insert_eq.
      * by apply Hnd.
Qed.

Lemma add_fields_loop_arity defs : forall acc name l,
  (name, DTuple l) ∈ defs -> length l <> 2 ->
  forall m, add_fields_loop defs acc <> Ok m.
Proof.
  induction defs as [|[name' d] defs IH]; intros acc name l Hel Hlen m Hrun.
  - by apply elem_of_nil in Hel.
  - apply add_fields_loop_step in Hrun as (t & Hrun & Ht).
    apply elem_of_cons in Hel as [[= <- <-]|Hel].
    + destruct l as [|a [|dv [|x l]]]; done.
    + by eapply IH.
Qed.

(** *** Frames of the loop of [FilterSet.filter_queryset] *)

Lemma same_shape_refl h : same_shape h h.
Proof. by intros r. Qed.

Lemma same_shape_trans h1 h2 h3 :
  same_shape h1 h2 -> same_shape h2 h3 -> same_shape h1 h3.
Proof.
  intros H12 H23 r. destruct (H12 r) as (Hc & Hf & Hm & Ha & Hl).
  destruct (H23 r) as (Hc' & Hf' & Hm' & Ha' & Hl').
  repeat (split; [congruence|]).
  intros Hne. rewrite Hl' by congruence. by apply Hl.
Qed.

Lemma same_shape_static h h' : same_shape h h' -> same_static h h'.
Proof. intros H r. destruct (H r) as (? & ? & _ & _ & ?). done. Qed.

Lemma same_static_sym h h' : same_static h h' -> same_static h' h.
Proof.
  intros H r. destruct (H r) as (Hc & Hf & Hl).
  split; [done|]. split; [done|]. intros Hne. symmetry. apply Hl. congruence.
Qed.

Lemma assign_shape w params r v : same_shape (heap w) (heap (assign w params r v)).
Proof.
  intros r'. destruct (decide (r = r')) as [->|Hne].
  - rewrite assign_heap_self. done.
  - rewrite assign_heap_other by done. done.
Qed.

Lemma apply_loop_shape attr params : forall qs w,
  same_shape (heap w) (heap (snd (FilterSet.apply_loop attr params qs w))).
Proof.
  induction attr as [|[k [r|]] attr IH]; intros qs w.
  - apply same_shape_refl.
  - destruct (params !! k) as [v|] eqn:Hk.
    + rewrite (apply_loop_step _ _ _ _ _ _ _ Hk).
      pose proof (fq_shape r qs v (assign w params r v)) as Hs.
      destruct (filter_queryset r qs v (assign w params r v)) as [[q1|e] w3];
        cbn [snd] in Hs.
      * eapply same_shape_trans; [apply (assign_shape w params r v)|].
        eapply same_shape_trans; [exact Hs|apply IH].
      * eapply same_shape_trans; [apply (assign_shape w params r v)|exact Hs].
    + rewrite (apply_loop_skip _ _ _ _ _ _ Hk). apply IH.
  - apply IH.
Qed.

Lemma apply_loop_untouched attr params r : forall qs w,
  (forall k, (k, AFilter r) ∈ attr -> params !! k = None) ->
  value (heap (snd (FilterSet.apply_loop attr params qs w)) r) = value (heap w r).
Proof.
  induction attr as [|[k [r0|]] attr IH]; intros qs w Hnone.
  - done.
  - assert (Hnone' : forall k, (k, AFilter r) ∈ attr -> params !! k = None).
    { intros k' Hin. apply Hnone. by right. }
    destruct (params !! k) as [v|] eqn:Hk.
    + assert (Hne : r0 <> r).
      { intros ->. rewrite (Hnone k) in Hk by (by left). done. }
      rewrite (apply_loop_step _ _ _ _ _ _ _ Hk).
      pose proof (fq_frame r0 qs v (assign w params r0 v) r) as Hfr.
      destruct (filter_queryset r0 qs v (assign w params r0 v)) as [[q1|e] w3];
        cbn [snd] in Hfr; destruct Hfr as (_ & _ & Hval & _).
      * rewrite (IH _ _ Hnone'), Hval. by rewrite assign_heap_other.
      * cbn [snd]. rewrite Hval. by rewrite assign_heap_other.
    + rewrite (apply_loop_skip _ _ _ _ _ _ Hk). by apply IH.
  - apply IH. intros k' Hin. apply Hnone. by right.
Qed.

Lemma apply_loop_executed attr params h0 : forall qs w,
  same_shape h0 (heap w) ->
  (forall k r, (k, AFilter r) ∈ attr -> fclass (h0 r) <> cNumberRangeFilter) ->
  executed (snd (FilterSet.apply_loop attr params qs w)) = executed w.
Proof.
  induction attr as [|[k [r|]] attr IH]; intros qs w Hs Hcl.
  - done.
  - assert (Hcl' : forall k r, (k, AFilter r) ∈ attr ->
              fclass (h0 r) <> cNumberRangeFilter).
    { intros k' r' Hin. apply (Hcl k' r'). by right. }
    destruct (params !! k) as [v|] eqn:Hk.
    + rewrite (apply_loop_step _ _ _ _ _ _ _ Hk).
      assert (Hr : fclass (heap (assign w params r v) r) <> cNumberRangeFilter).
      { destruct (assign_shape w params r v r) as (-> & _).
        destruct (Hs r) as (-> & _). apply (Hcl k r). by left. }
      pose proof (fq_shape r qs v (assign w params r v)) as Hs3.
      assert (Hex : executed (snd (filter_queryset r qs v (assign w params r v)))
                    = executed w).
      { destruct (fq_world_cases r qs v (assign w params r v))
          as [->|[[E ->]|[E _]]]; done. }
      destruct (filter_queryset r qs v (assign w params r v)) as [[q1|e] w3];
        cbn [snd] in Hs3, Hex; [|done].
      rewrite IH; [done| |done].
      eapply same_shape_trans; [exact Hs|].
      eapply same_shape_trans; [apply (assign_shape w params r v)|exact Hs3].
    + rewrite (apply_loop_skip _ _ _ _ _ _ Hk). by apply IH.
  - apply IH; [done|]. intros k' r' Hin. apply (Hcl k' r'). by right.
Qed.

(** *** The result of the loop *)

Lemma lookup_gate_static h h' r :
  same_static h h' ->
  bool_decide (fclass (h' r) = cInFilter) || lookup_allowed (h' r)
  = bool_decide (fclass (h r) = cInFilter) || lookup_allowed (h r).
Proof.
  intros Hs. destruct (Hs r) as (Hc & Hf & Hl).
  unfold lookup_allowed. rewrite Hc.
  destruct (decide (fclass (h r) = cInFilter)) as [E|Hne].
  - by rewrite !(bool_decide_eq_true_2 _ E).
  - by rewrite (Hl Hne).
Qed.

Lemma await_result_db w w' c q :
  db w' = db w -> await_result w' c q = await_result w c q.
Proof. intros Hdb. unfold await_result. by rewrite Hdb. Qed.

Lemma await_result_ok w c q q' : await_result w c q = Ok q' -> q' = q.
Proof.
  destruct c; simpl; try (by intros [= <-]).
  destruct (db w q) as [[cls msg]|]; [done|by intros [= <-]].
Qed.

Lemma outcome_db attr params h w w' : forall qs,
  db w' = db w -> outcome attr params h w' qs = outcome attr params h w qs.
Proof.
  induction attr as [|[k [r|]] attr IH]; intros qs Hdb; simpl; [done| |by apply IH].
  destruct (params !! k) as [v|]; [|by apply IH].
  destruct (is_none v); [by apply IH|].
  destruct (_ || _); [|done]. destruct (type_error _ _); [done|].
  rewrite (await_result_db _ _ _ _ Hdb).
  destruct (await_result _ _ _); [by apply IH|done].
Qed.

Lemma outcome_static attr params h h' w : forall qs,
  same_static h h' -> outcome attr params h' w qs = outcome attr params h w qs.
Proof.
  induction attr as [|[k [r|]] attr IH]; intros qs Hs; simpl; [done| |by apply IH].
  destruct (params !! k) as [v|]; [|by apply IH].
  destruct (is_none v); [by apply IH|].
  rewrite (lookup_gate_static _ _ r Hs).
  destruct (Hs r) as (Hc & Hf & Hl). rewrite Hc.
  destruct (bool_decide (fclass (h r) = cInFilter) || lookup_allowed (h r)) eqn:Hg.
  - rewrite (predicate_key_static _ _ r Hs).
    destruct (type_error _ _); [done|].
    destruct (await_result _ _ _); [by apply IH|done].
  - apply orb_false_iff in Hg as [Hne%bool_decide_eq_false _].
    unfold invalid_lookup. by rewrite (Hl Hne).
Qed.

Lemma apply_loop_db attr params : forall qs w,
  db (snd (FilterSet.apply_loop attr params qs w)) = db w.
Proof.
  induction attr as [|[k [r|]] attr IH]; intros qs w.
  - done.
  - destruct (params !! k) as [v|] eqn:Hk.
    + rewrite (apply_loop_step _ _ _ _ _ _ _ Hk).
      pose proof (fq_db r qs v (assign w params r v)) as Hdb.
      destruct (filter_queryset r qs v (assign w params r v)) as [[q1|e] w3];
        cbn [snd] in Hdb; [|done].
      by rewrite IH.
    + rewrite (apply_loop_skip _ _ _ _ _ _ Hk). apply IH.
  - apply IH.
Qed.

Lemma apply_loop_outcome attr params h0 :
  (forall k r, (k, AFilter r) ∈ attr -> instantiable (fclass (h0 r)) = true) ->
  forall qs w, same_static h0 (heap w) ->
  fst (FilterSet.apply_loop attr params qs w) = outcome attr params h0 w qs.
Proof.
  induction attr as [|[k [r|]] attr IH]; intros Hinst qs w Hs.
  - done.
  - assert (Hinst' : forall k r, (k, AFilter r) ∈ attr ->
              instantiable (fclass (h0 r)) = true).
    { intros k' r' Hin. apply (Hinst k' r'). by right. }
    cbn [outcome].
    destruct (params !! k) as [v|] eqn:Hk.
    + rewrite (apply_loop_step _ _ _ _ _ _ _ Hk).
      set (w2 := assign w params r v).
      assert (Hs2 : same_static h0 (heap w2)).
      { eapply same_static_trans; [exact Hs|apply assign_static]. }
      assert (Hc2 : instantiable (fclass (heap w2 r)) = true).
      { destruct (Hs2 r) as (-> & _). apply (Hinst k r). by left. }
      assert (Hv2 : value (heap w2 r) = v).
      { unfold w2. by rewrite assign_heap_self. }
      pose proof (fq_static r qs v w2) as Hs3.
      pose proof (fq_db r qs v w2) as Hdb3.
      assert (Hfst : fst (filter_queryset r qs v w2) =
                if is_none v then Ok qs
                else if bool_decide (fclass (h0 r) = cInFilter)
                        || lookup_allowed (h0 r)
                then match type_error (fclass (h0 r)) v with
                     | None => await_result w (fclass (h0 r))
                                 (qs_filter qs {[ predicate_key (h0 r) := v ]})
                     | Some e => Raise e
                     end
                else Raise (invalid_lookup (h0 r))).
      { destruct (is_none_cases v) as [->|Hne].
        - rewrite fq_none; [done|done|by rewrite Hv2].
        - rewrite (is_none_false _ Hne).
          rewrite fq_result by (done || by rewrite Hv2).
          rewrite (lookup_gate_static _ _ r Hs2), Hv2.
          rewrite (predicate_key_static _ _ r Hs2).
          destruct (Hs2 r) as (Hc & Hf & Hl). rewrite Hc.
          destruct (bool_decide (fclass (h0 r) = cInFilter)
                    || lookup_allowed (h0 r)) eqn:Hg; [done|].
          apply orb_false_iff in Hg as [Hn%bool_decide_eq_false _].
          unfold invalid_lookup. by rewrite (Hl Hn). }
      destruct (filter_queryset r qs v w2) as [res w3].
      cbn [fst snd] in Hfst, Hs3, Hdb3. subst res.
      assert (Hs0 : same_static h0 (heap w3)).
      { eapply same_static_trans; [exact Hs2|exact Hs3]. }
      assert (Hdb : db w3 = db w) by (by rewrite Hdb3).
      destruct (is_none v).
      * rewrite (IH Hinst' _ _ Hs0). by apply outcome_db.
      * destruct (_ || _); [|done].
        destruct (type_error _ _); [done|].
        destruct (await_result _ _ _); [|done].
        rewrite (IH Hinst' _ _ Hs0). by apply outcome_db.
    + rewrite (apply_loop_skip _ _ _ _ _ _ Hk). by apply IH.
  - cbn [outcome]. apply IH; [|done].
    intros k' r' Hin. apply (Hinst k' r'). by right.
Qed.

Lemma accepts_gate f v :
  instantiable (fclass f) = true ->
  accepts f v =
    (bool_decide (fclass f = cInFilter) || lookup_allowed f)
    && match type_error (fclass f) v with None => true | Some _ => false end.
Proof.
  intros Hc. unfold accepts. rewrite (type_error_shape _ _ Hc).
  destruct (_ || _); [|done]. simpl.
  destruct (wrong_type _ _); [done|]. simpl.
  by destruct (int_refusal _ _).
Qed.

Lemma outcome_ok_chained attr params h w : forall qs q,
  outcome attr params h w qs = Ok q ->
  q = {| qs_model := qs_model qs;
         qs_filters := qs_filters qs ++ chained attr params h |}.
Proof.
  induction attr as [|[k [r|]] attr IH]; intros qs q; cbn [outcome chained].
  - intros [= <-]. rewrite app_nil_r. by destruct qs.
  - destruct (params !! k) as [v|]; [|by apply IH].
    destruct (is_none v); [by apply IH|].
    destruct (_ || _); [|done]. destruct (type_error _ _); [done|].
    destruct (await_result _ _ _) as [qs'|] eqn:Ha; [|done].
    apply await_result_ok in Ha as ->.
    intros ->%IH. simpl. by rewrite <- app_assoc.
  - by apply IH.
Qed.

Lemma outcome_ok_iff attr params h w :
  (forall k r, (k, AFilter r) ∈ attr -> instantiable (fclass (h r)) = true) ->
  (forall k r q, (k, AFilter r) ∈ attr ->
     await_result w (fclass (h r)) q = Ok q) ->
  forall qs,
  (exists q, outcome attr params h w qs = Ok q) <->
  (forall k r v, (k, AFilter r) ∈ attr -> params !! k = Some v -> v <> VNone ->
     accepts (h r) v = true).
Proof.
  induction attr as [|[k [r|]] attr IH]; intros Hinst Haw qs.
  - simpl. split; [by intros _ k r v ?%elem_of_nil|eauto].
  - assert (Hinst' : forall k r, (k, AFilter r) ∈ attr ->
              instantiable (fclass (h r)) = true).
    { intros k' r' Hin. apply (Hinst k' r'). by right. }
    assert (Haw' : forall k r q, (k, AFilter r) ∈ attr ->
              await_result w (fclass (h r)) q = Ok q).
    { intros k' r' q Hin. apply (Haw k' r'). by right. }
    assert (Hrest : forall qs', (exists q, outcome attr params h w qs' = Ok q) <->
              (forall k r v, (k, AFilter r) ∈ attr -> params !! k = Some v ->
                 v <> VNone -> accepts (h r) v = true)) by (intros; by apply IH).
    assert (Htail :
              (forall k' r' v', (k', AFilter r') ∈ (k, AFilter r) :: attr ->
                 params !! k' = Some v' -> v' <> VNone ->
                 accepts (h r') v' = true) ->
              (forall k' r' v', (k', AFilter r') ∈ attr ->
                 params !! k' = Some v' -> v' <> VNone ->
                 accepts (h r') v' = true)).
    { intros H k' r' v' Hin. apply H. by right. }
    assert (Hhere : (k, AFilter r) ∈ (k, AFilter r) :: attr) by (by left).
    cbn [outcome].
    destruct (params !! k) as [v|] eqn:Hk.
    + destruct (is_none_cases v) as [->|Hne].
      * simpl. rewrite Hrest. split; [|by apply Htail].
        intros H k' r' v' [[= -> ->]|Hin]%elem_of_cons Hk' Hv'; [congruence|].
        by eapply H.
      * rewrite (is_none_false _ Hne).
        pose proof (accepts_gate (h r) v (Hinst k r Hhere)) as Hacc.
        destruct (bool_decide (fclass (h r) = cInFilter) || lookup_allowed (h r)).
        -- destruct (type_error (fclass (h r)) v) as [e|].
           ++ split; [by intros [q ?]|]. intros H.
              rewrite (H k r v) in Hacc by done. done.
           ++ rewrite (Haw k r _ Hhere), Hrest. split; [|by apply Htail].
              intros H k' r' v' [[= -> ->]|Hin]%elem_of_cons Hk' Hv'.
              ** assert (v' = v) as -> by congruence. done.
              ** by eapply H.
        -- split; [by intros [q ?]|]. intros H.
           rewrite (H k r v) in Hacc by done. done.
    + rewrite Hrest. split; [|by apply Htail].
      intros H k' r' v' [[= -> ->]|Hin]%elem_of_cons Hk' Hv'; [congruence|].
      by eapply H.
  - cbn [outcome]. rewrite IH.
    + split.
      * intros H k' r' v' [[=]|Hin]%elem_of_cons. by apply H.
      * intros H k' r' v' Hin. apply H. by right.
    + intros k' r' Hin. apply (Hinst k' r'). by right.
    + intros k' r' q Hin. apply (Haw k' r'). by right.
Qed.


Lemma outcome_params_ext attr params1 params2 h w : forall qs,
  (forall k r, (k, AFilter r) ∈ attr -> params1 !! k = params2 !! k) ->
  outcome attr params1 h w qs = outcome attr params2 h w qs.
Proof.
  induction attr as [|[k [r|]] attr IH]; intros qs Hext; cbn [outcome]; [done| |].
  - assert (Hext' : forall k r, (k, AFilter r) ∈ attr ->
              params1 !! k = params2 !! k).
    { intros k' r' Hin. apply (Hext k' r'). by right. }
    rewrite <- (Hext k r) by (by left).
    destruct (params1 !! k) as [v|]; [|by apply IH].
    destruct (is_none v); [by apply IH|].
    destruct (_ || _); [|done]. destruct (type_error _ _); [done|].
    destruct (await_result _ _ _); [by apply IH|done].
  - apply IH. intros k' r' Hin. apply (Hext k' r'). by right.
Qed.

(** *** [to_dependencies] reads only the shape of the descriptors *)

Lemma filter_field_names_shape attr w w' :
  same_shape (heap w) (heap w') ->
  BaseFilterSet.filter_field_names attr w'
  = BaseFilterSet.filter_field_names attr w.
Proof.
  intros Hs. induction attr as [|[k [r|]] attr IH]; simpl; [done| |done].
  destruct (Hs r) as (_ & -> & _). by rewrite IH.
Qed.

Lemma annotations_get_value_shape f f' :
  fclass f' = fclass f -> _annotations f' = _annotations f ->
  annotations_get_value f' = annotations_get_value f.
Proof. intros Hc Ha. unfold annotations_get_value. by rewrite Hc, Ha. Qed.

Lemma deps_loop_shape attr w w' : forall D,
  same_shape (heap w) (heap w') ->
  BaseFilterSet.deps_loop attr w' D = BaseFilterSet.deps_loop attr w D.
Proof.
  intros D Hs. revert D.
  induction attr as [|[k [r|]] attr IH]; intros D; simpl; [done| |done].
  destruct (Hs r) as (Hc & _ & _ & Ha & _).
  rewrite (annotations_get_value_shape _ _ Hc Ha).
  destruct (annotations_get_value (heap w r)); [|done].
  destruct (add_fields _ _); [|done]. apply IH.
Qed.

Lemma to_dependencies_shape cls w w' :
  same_shape (heap w) (heap w') ->
  BaseFilterSet.to_dependencies cls w' = BaseFilterSet.to_dependencies cls w.
Proof.
  intros Hs. unfold BaseFilterSet.to_dependencies,
    BaseFilterSet.check_fields_appearance.
  rewrite (filter_field_names_shape _ _ _ Hs).
  destruct (model cls); [|done].
  destruct (BaseFilterSet.check_loop _ _); [|done]. by apply deps_loop_shape.
Qed.

(** *** The example class *)

Lemma ex_cls_declared key r :
  (key, AFilter r) ∈ class_dict ex_cls ->
  (key, r) = ("age", 0) \/ (key, r) = ("tags", 1) \/ (key, r) = ("score", 2).
Proof.
  intros Hin. vm_compute in Hin. set_unfold in Hin.
  destruct Hin as [H|[H|[H|[H|[H|[]]]]]]; inversion H; subst; tauto.
Qed.

Lemma ex_cls_instantiable key r :
  (key, AFilter r) ∈ class_dict ex_cls ->
  instantiable (fclass (heap ex_world r)) = true.
Proof.
  intros [H|[H|H]]%ex_cls_declared; inversion H; subst; reflexivity.
Qed.

Lemma ex_cls_height_declared key r :
  (key, AFilter r) ∈ class_dict ex_cls_height ->
  (key, r) = ("age", 0) \/ (key, r) = ("height", 3).
Proof.
  intros Hin. vm_compute in Hin. set_unfold in Hin.
  destruct Hin as [H|[H|[H|[]]]]; inversion H; subst; tauto.
Qed.

Lemma ex_cls_height_instantiable key r :
  (key, AFilter r) ∈ class_dict ex_cls_height ->
  instantiable (fclass (heap ex_world_height r)) = true.
Proof.
  intros [H|H]%ex_cls_height_declared; inversion H; subst; reflexivity.
Qed.

Lemma ex_cls_height_no_range key r :
  (key, AFilter r) ∈ class_dict ex_cls_height ->
  fclass (heap ex_world_height r) <> cNumberRangeFilter.
Proof.
  intros [H|H]%ex_cls_height_declared; inversion H; subst; discriminate.
Qed.


Lemma ex_params_ascii key v :
  ({[ "age" := VStr "abc" ]} : gmap string PyVal) !! key = Some v ->
  ascii_value v = true.
Proof. by intros [<- <-]%lookup_singleton_Some. Qed.

(** ** Field filters *)

(** C1: a field filter of any of the six concrete classes whose [value]
    attribute is [None] returns the queryset it was given, raises nothing
    and leaves the world (descriptors, output, executed queries) as it
    was. *)
Theorem C1_none_value_is_noop (self : ref) (queryset : QuerySet) (v : PyVal)
    (w : World) :
  instantiable (fclass (heap w self)) = true ->
  value (heap w self) = VNone ->
  filter_queryset self queryset v w = (Ok queryset, w).
Proof.
  intros Hc Hv.
  destruct (instantiable_cases _ Hc) as [E|[E|[E|[E|[E|E]]]]].
  1, 2, 4, 5: rewrite fq_simple by (rewrite E; set_solver); by rewrite Hv.
  - rewrite fq_in by done. by rewrite Hv.
  - rewrite fq_range by done. by rewrite Hv.
Qed.

Lemma C1_none_value_is_noop_witness :
  instantiable (fclass (heap (world_of [ex_age_gte] ex_age_gte) 0)) = true /\
  value (heap (world_of [ex_age_gte] ex_age_gte) 0) = VNone /\
  filter_queryset 0 ex_qs (VInt 3) (world_of [ex_age_gte] ex_age_gte)
    = (Ok ex_qs, world_of [ex_age_gte] ex_age_gte).
Proof.
  split; [reflexivity|]. split; [reflexivity|].
  apply (C1_none_value_is_noop 0 ex_qs (VInt 3) (world_of [ex_age_gte] ex_age_gte));
    reflexivity.
Defined.

(** C2, as stated, fails twice.  An InFilter built with the lookup ['gt'],
    which is not in its allow-list [[None]], raises nothing: it filters on
    [tags__in].  A NumberFilter with an allowed lookup still raises when
    its value is a list. *)
Lemma C2_counterexample :
  (available_expr (fclass ex_tags_gt) = Some [None] /\
   lookup_expr ex_tags_gt = Some "gt" /\
   value ex_tags_gt <> VNone /\
   fst (filter_queryset 0 ex_qs (VList [VInt 1])
          (world_of [ex_tags_gt] ex_tags_gt))
     = Ok (qs_filter ex_qs {[ "tags__in" := VList [VInt 1] ]})) /\
  (lookup_allowed ex_age_list = true /\
   value ex_age_list <> VNone /\
   fst (filter_queryset 0 ex_qs (VList [])
          (world_of [ex_age_list] ex_age_list))
     = Raise (TypeError "Invalid type")).
Proof. repeat split; try reflexivity; discriminate. Qed.

(** C2, amended: for the five classes that call [_check_lookup_exr]
    (every concrete class but InFilter) and a filter whose value is not
    [None], [filter_queryset] raises
    [Exception('Invalid lookup expression: ...')] exactly when
    [lookup_expr] is not in the class's [available_expr]; it does so
    before anything else, leaving the world as it was. *)
Theorem C2_lookup_validation (self : ref) (qs : QuerySet) (v : PyVal)
    (w : World) :
  let f := heap w self in
  fclass f ∈ checking_classes ->
  value f <> VNone ->
  exists allowed,
    available_expr (fclass f) = Some allowed /\
    (fst (filter_queryset self qs v w)
       = Raise (Exception_
           ("Invalid lookup expression: " +:+ fmt_lookup (lookup_expr f)))
     <-> lookup_expr f ∉ allowed) /\
    (lookup_expr f ∉ allowed -> snd (filter_queryset self qs v w) = w).
Proof.
  intros f Hc Hv. subst f.
  destruct (available_expr_checking _ Hc) as [allowed Ha].
  exists allowed. split; [exact Ha|].
  assert (Hi : instantiable (fclass (heap w self)) = true).
  { revert Hc. unfold checking_classes. set_unfold.
    intros [E|[E|[E|[E|[E|[]]]]]]; by rewrite E. }
  assert (Hn : bool_decide (fclass (heap w self) = cInFilter) = false).
  { apply bool_decide_eq_false. revert Hc. unfold checking_classes. set_unfold.
    intros [E|[E|[E|[E|[E|[]]]]]]; by rewrite E. }
  assert (Hla : lookup_allowed (heap w self)
                = bool_decide (lookup_expr (heap w self) ∈ allowed)).
  { unfold lookup_allowed. by rewrite Ha. }
  split.
  - rewrite (fq_result self qs v w Hi Hv), Hn, Hla. simpl.
    case_bool_decide as Hin; split.
    + destruct (type_error _ _) as [e|] eqn:Ht.
      * intros [= ->]. by apply type_error_not_Exception in Ht.
      * intros Haw. by apply await_result_not_Exception in Haw.
    + done.
    + done.
    + done.
  - intros Hnot.
    assert (Hf : lookup_allowed (heap w self) = false).
    { rewrite Hla. by apply bool_decide_eq_false. }
    revert Hc. unfold checking_classes. set_unfold.
    intros [E|[E|[E|[E|[E|[]]]]]].
    1, 2, 3, 4: rewrite fq_simple by (rewrite E; set_solver);
      rewrite (is_none_false _ Hv), Hf; reflexivity.
    rewrite fq_range by done. by rewrite (is_none_false _ Hv), Hf.
Qed.

Lemma C2_lookup_validation_witness :
  exists allowed,
    available_expr cNumberFilter = Some allowed /\
    (fst (filter_queryset 0 ex_qs (VInt 7) (world_of [ex_age_7] ex_age_7))
       = Raise (Exception_ "Invalid lookup expression: gte")
     <-> Some "gte" ∉ allowed) /\
    (Some "gte" ∉ allowed ->
     snd (filter_queryset 0 ex_qs (VInt 7) (world_of [ex_age_7] ex_age_7))
       = world_of [ex_age_7] ex_age_7).
Proof.
  apply (C2_lookup_validation 0 ex_qs (VInt 7) (world_of [ex_age_7] ex_age_7)).
  - unfold checking_classes. simpl. set_solver.
  - discriminate.
Defined.

(** C4: [_kwargs_builder], as resolved for any class of the hierarchy,
    returns the one-entry mapping from [field_name + "__" + lookup_expr]
    (or from [field_name] alone when [lookup_expr] is [None]) to the value
    it is given; and the predicate a concrete filter chains onto the
    queryset is that mapping for the filter as [filter_queryset] leaves
    it. *)
Theorem C4_kwargs_predicate (self : ref) (qs : QuerySet) (v : PyVal) (w : World) :
  let f := heap w self in
  fst (_kwargs_builder self v w)
    = Ok {[ match lookup_expr f with
            | Some le => (field_name f +:+ "__") +:+ le
            | None => field_name f
            end := v ]} /\
  (instantiable (fclass f) = true -> value f <> VNone ->
   forall q w', filter_queryset self qs v w = (Ok q, w') ->
     q = qs_filter qs {[ kwargs_key (heap w' self) := v ]}).
Proof.
  intros f. subst f. split.
  - by rewrite kwargs_builder_eq.
  - intros Hc Hv q w' Hq. apply is_none_false in Hv.
    destruct (instantiable_cases _ Hc) as [E|[E|[E|[E|[E|E]]]]].
    1, 2, 4, 5: rewrite fq_simple in Hq by (rewrite E; set_solver);
      rewrite Hv in Hq; destruct (lookup_allowed _); [|done];
      destruct (type_error _ _); [done|]; by inversion Hq; subst.
    + rewrite fq_in in Hq by done. rewrite Hv in Hq.
      destruct (isinstance_list _); [|done]. inversion Hq; subst.
      unfold force_in, kwargs_key; simpl. by rewrite fn_lookup_insert.
    + rewrite fq_range in Hq by done. rewrite Hv in Hq.
      destruct (lookup_allowed _); [|done].
      destruct (type_error _ _); [done|]. cbv zeta in Hq.
      destruct (db w _) as [[cls msg]|]; [done|]. by inversion Hq; subst.
Qed.

Lemma C4_kwargs_predicate_witness :
  fst (_kwargs_builder 0 (VInt 7) (world_of [ex_age_7] ex_age_7))
    = Ok {[ "age__gte" := VInt 7 ]} /\
  filter_queryset 0 ex_qs (VInt 7) (world_of [ex_age_7] ex_age_7)
    = (Ok (qs_filter ex_qs {[ "age__gte" := VInt 7 ]}),
       world_of [ex_age_7] ex_age_7) /\
  qs_filter ex_qs {[ "age__gte" := VInt 7 ]}
    = qs_filter ex_qs
        {[ kwargs_key (heap (world_of [ex_age_7] ex_age_7) 0) := VInt 7 ]}.
Proof.
  pose proof (C4_kwargs_predicate 0 ex_qs (VInt 7) (world_of [ex_age_7] ex_age_7))
    as [H1 H2].
  split; [exact H1|]. split; [reflexivity|].
  apply H2; [reflexivity|discriminate|reflexivity].
Defined.






(** C6, as stated, fails: neither DateRangeFilter nor DateTimeRangeFilter
    can be instantiated. *)
Lemma C6_counterexample :
  new cDateRangeFilter (init_args "created" (Some "range") VNone)
    = Raise (TypeError
        "Can't instantiate abstract class DateRangeFilter with abstract methods filter_queryset, to_internal_value") /\
  new cDateTimeRangeFilter (init_args "created" (Some "range") VNone)
    = Raise (TypeError
        "Can't instantiate abstract class DateTimeRangeFilter with abstract methods filter_queryset, to_internal_value").
Proof. split; reflexivity. Qed.

(** C6, amended: DateRangeFilter and DateTimeRangeFilter are declared in
    the hierarchy with an empty body: the [to_internal_value] and
    [filter_queryset] they inherit are the abstract ones of
    BaseFieldFilter, so no argument list instantiates them; the classes
    that can be instantiated are the six others, which define both
    methods. *)
Theorem C6_range_classes_are_abstract (c : FilterClass) (a : InitArgs) :
  (c = cDateRangeFilter \/ c = cDateTimeRangeFilter ->
   own_methods c = [] /\
   resolve c m_to_internal_value = Some cBaseFieldFilter /\
   resolve c m_filter_queryset = Some cBaseFieldFilter /\
   abstractmethods c = [m_filter_queryset; m_to_internal_value] /\
   exists msg, new c a = Raise (TypeError msg)) /\
  ((exists f, new c a = Ok f) <->
   c ∈ [cNumberFilter; cCharFilter; cInFilter; cDateTimeFilter; cDateFilter;
        cNumberRangeFilter]).
Proof.
  split.
  - intros [-> | ->]; repeat split; eexists; reflexivity.
  - split.
    + intros [f Hf]. destruct c; try discriminate; set_solver.
    + set_unfold. intros [->|[->|[->|[->|[->|[->|[]]]]]]]; eexists; reflexivity.
Qed.

Lemma C6_range_classes_are_abstract_witness :
  exists msg,
    new cDateRangeFilter (init_args "created" None VNone) = Raise (TypeError msg).
Proof.
  pose proof (C6_range_classes_are_abstract cDateRangeFilter
                (init_args "created" None VNone)) as [H _].
  destruct (H (or_introl eq_refl)) as (_ & _ & _ & _ & Hn). exact Hn.
Defined.

(** ** Filter sets *)

(** C3: with a model bound, [to_dependencies] raises
    [Exception("this field does not belong to model")] exactly when some
    field filter declared on the class names a field that is not among the
    model's field names; when every declared filter names a field of the
    model (and is a descriptor as its constructor leaves it) a schema
    class is returned. *)
Theorem C3_declared_fields_validated (cls : FilterSetClass) (m : Model)
    (w : World) :
  model cls = Some m ->
  (BaseFilterSet.to_dependencies cls w
     = Raise (Exception_ "this field does not belong to model")
   <-> exists key r, (key, AFilter r) ∈ class_dict cls /\
                     field_name (heap w r) ∉ model_field_names m) /\
  ((forall key r, (key, AFilter r) ∈ class_dict cls ->
      field_name (heap w r) ∈ model_field_names m /\
      well_formed (heap w r) = true) ->
   exists d, BaseFilterSet.to_dependencies cls w = Ok d).
Proof.
  intros Hm. unfold BaseFilterSet.to_dependencies,
    BaseFilterSet.check_fields_appearance. rewrite Hm.
  set (ffs := BaseFilterSet.filter_field_names (class_dict cls) w).
  destruct (check_loop_spec ffs (model_field_names m))
    as [[-> Hall]|[-> (x & Hx & Hnot)]].
  - split.
    + split.
      * intros He. apply deps_loop_raises in He as [msg [=]].
      * intros (key & r & Hin & Hnot). exfalso. apply Hnot, Hall.
        apply filter_field_names_elem. eauto.
    + intros Hok.
      destruct (deps_loop_ok (class_dict cls) w
                  (create_dynamic_class (cls_name cls +:+ "Dependencies")))
        as (D' & HD).
      * intros k r Hin. by apply Hok in Hin as [_ ?].
      * eauto.
  - apply filter_field_names_elem in Hx as (key & r & Hin & <-). split.
    + split; [|done]. intros _. eauto.
    + intros Hok. by apply Hok in Hin as [? _].
Qed.

Lemma C3_declared_fields_validated_witness :
  model ex_cls_height = Some ex_model /\
  BaseFilterSet.to_dependencies ex_cls_height ex_world_height
    = Raise (Exception_ "this field does not belong to model") /\
  exists d, BaseFilterSet.to_dependencies ex_cls ex_world = Ok d.
Proof.
  split; [reflexivity|]. split.
  - apply (C3_declared_fields_validated ex_cls_height ex_model ex_world_height
             eq_refl).
    exists "height", 3. split.
    + vm_compute. repeat constructor.
    + vm_compute. set_solver.
  - apply (C3_declared_fields_validated ex_cls ex_model ex_world eq_refl).
    intros key r Hin. vm_compute in Hin. set_unfold in Hin.
    destruct Hin as [H|[H|[H|[H|[H|[]]]]]]; inversion H; subst;
      (split; [vm_compute; set_solver | reflexivity]).
Defined.

(** C7: the schema field of a NumberRangeFilter.  The class body has no
    [value] annotation (it annotates [self.value] inside [__init__], which
    records nothing), so the lookup of ['value'] in the descriptor's
    annotations finds none and the field is annotated [Optional[None]],
    that is [NoneType], where NumberFilter, which has the class-level
    annotation, gets [Optional[int]]. *)
Theorem C7_range_filter_schema_field :
  annotations_get_value ex_age_gte = Ok (Some TInt) /\
  annotations_get_value ex_score_none = Ok None /\
  exists d,
    BaseFilterSet.to_dependencies ex_cls ex_world = Ok d /\
    dep_name d = "UserFilterDependencies" /\
    model_fields d !! "age"
      = Some {| annotation := TUnion TInt TNoneType; default := VNone |} /\
    model_fields d !! "score"
      = Some {| annotation := TNoneType; default := VNone |}.
Proof.
  split; [reflexivity|]. split; [reflexivity|].
  destruct (BaseFilterSet.to_dependencies ex_cls ex_world) as [d|e] eqn:Hd;
    [|vm_compute in Hd; discriminate Hd].
  exists d. split; [reflexivity|].
  vm_compute in Hd. injection Hd as <-.
  repeat split; vm_compute; reflexivity.
Qed.

(** C5, as stated, fails: ["age"] is a key of [query_params] and names a
    declared filter, yet with the value [None] no ORM filter call is
    chained. *)
Lemma C5_counterexample :
  ("age", AFilter 0) ∈ class_dict ex_cls /\
  is_Some (query_params (ex_instance {[ "age" := VNone ]}) !! "age") /\
  fst (FilterSet.filter_queryset (ex_instance {[ "age" := VNone ]}) ex_world)
    = Ok {| qs_model := "User"; qs_filters := [] |}.
Proof.
  split; [vm_compute; repeat constructor|]. split; [by eexists|].
  vm_compute. reflexivity.
Qed.

(** C5, amended: when [FilterSet.filter_queryset] returns, its result is
    the model's queryset with one ORM filter call chained, in the order of
    declaration, for each declared field filter whose attribute name is a
    key of [query_params] with a value other than [None]; a filter whose
    name is absent from [query_params], or present with the value [None],
    chains nothing.  It does return when the declared filters accept the
    values they are given and the database answers the queries it is
    asked. *)
Theorem C5_filters_applied_in_order (self : FilterSetInstance) (m : Model)
    (w : World) :
  model (self_class self) = Some m ->
  (forall key r, (key, AFilter r) ∈ class_dict (self_class self) ->
     instantiable (fclass (heap w r)) = true) ->
  (forall q w', FilterSet.filter_queryset self w = (Ok q, w') ->
     q = {| qs_model := model_name m;
            qs_filters := chained (class_dict (self_class self))
                            (query_params self) (heap w) |}) /\
  ((forall key r v, (key, AFilter r) ∈ class_dict (self_class self) ->
      query_params self !! key = Some v -> v <> VNone ->
      accepts (heap w r) v = true) ->
   (forall q, db w q = None) ->
   exists w',
     FilterSet.filter_queryset self w =
       (Ok {| qs_model := model_name m;
              qs_filters := chained (class_dict (self_class self))
                              (query_params self) (heap w) |}, w')).
Proof.
  intros Hm Hinst. split.
  - intros q w' Hrun.
    assert (Hfst : fst (FilterSet.filter_queryset self w) = Ok q)
      by (by rewrite Hrun).
    rewrite filter_set_queryset_eq, Hm in Hfst.
    rewrite (apply_loop_outcome _ _ (heap w) Hinst _ w (same_static_refl _))
      in Hfst.
    by apply outcome_ok_chained in Hfst.
  - intros Hacc Hdb. rewrite filter_set_queryset_eq, Hm.
    destruct (apply_loop_ok _ _ (heap w) Hinst Hacc w
                {| qs_model := model_name m; qs_filters := [] |}
                (same_static_refl _) Hdb) as (w' & ->).
    by exists w'.
Qed.

Lemma C5_filters_applied_in_order_witness :
  exists w',
    FilterSet.filter_queryset
      (ex_instance {[ "score" := VInt 3; "age" := VInt 30; "tags" := VNone;
                      "page" := VInt 2 ]}) ex_world
    = (Ok {| qs_model := "User";
             qs_filters := [ {[ "age__gte" := VInt 30 ]};
                             {[ "score" := VInt 3 ]} ] |}, w').
Proof.
  destruct (C5_filters_applied_in_order
              (ex_instance {[ "score" := VInt 3; "age" := VInt 30;
                              "tags" := VNone; "page" := VInt 2 ]})
              ex_model ex_world eq_refl) as (_ & Hret).
  - intros key r Hin. vm_compute in Hin. set_unfold in Hin.
    destruct Hin as [H|[H|[H|[H|[H|[]]]]]]; inversion H; subst; reflexivity.
  - destruct Hret as (w' & Hw').
    + intros key r v [Hd|[Hd|Hd]]%ex_cls_declared Hk Hne;
        inversion Hd; subst; vm_compute in Hk;
        first [discriminate Hk | injection Hk as <-];
        first [reflexivity | by destruct Hne].
    + intros q. reflexivity.
    + exists w'. exact Hw'.
Defined.

(** C9: a call of [FilterSet.filter_queryset] that returns has stored,
    in each declared descriptor named by a key of [query_params], the
    value of that parameter (when one descriptor is declared under several
    names, the parameters naming it are taken to agree); descriptors named
    by no parameter keep their value.  The descriptors belong to the class:
    a later call by any other instance of the class without parameters
    finds the world, and so the stored values, as the first call left
    them. *)
Theorem C9_descriptor_values_persist (self : FilterSetInstance)
    (w w' : World) (q : QuerySet) :
  FilterSet.filter_queryset self w = (Ok q, w') ->
  (forall key r v,
     (key, AFilter r) ∈ class_dict (self_class self) ->
     query_params self !! key = Some v ->
     (forall key' v', (key', AFilter r) ∈ class_dict (self_class self) ->
        query_params self !! key' = Some v' -> v' = v) ->
     value (heap w' r) = v) /\
  (forall r,
     (forall key, (key, AFilter r) ∈ class_dict (self_class self) ->
        query_params self !! key = None) ->
     value (heap w' r) = value (heap w r)) /\
  (forall other : FilterSetInstance,
     self_class other = self_class self -> query_params other = ∅ ->
     snd (FilterSet.filter_queryset other w') = w').
Proof.
  intros Hrun. rewrite filter_set_queryset_eq in Hrun.
  destruct (model (self_class self)) as [m|] eqn:Hm; [|done].
  pose proof (apply_loop_values _ _ _ _ _ _ Hrun) as Hval.
  split; [|split].
  - intros key r v Hin Hk Hagree. rewrite Hval.
    apply last_assigned_agree; [done|]. right. eauto.
  - intros r Hnone. rewrite Hval. by apply last_assigned_untouched.
  - intros other Hc Hp.
    rewrite filter_set_queryset_eq, Hc, Hm, Hp. by rewrite apply_loop_no_params.
Qed.

Lemma C9_descriptor_values_persist_witness :
  value (heap ex_world 0) = VNone /\
  value (heap (snd (FilterSet.filter_queryset
                      (ex_instance {[ "age" := VInt 30 ]}) ex_world)) 0)
    = VInt 30.
Proof.
  split; [reflexivity|].
  destruct (FilterSet.filter_queryset (ex_instance {[ "age" := VInt 30 ]}) ex_world)
    as [res w'] eqn:Hrun.
  assert (Hres : res = Ok {| qs_model := "User";
                             qs_filters := [ {[ "age__gte" := VInt 30 ]} ] |}).
  { change res with (fst (res, w')). rewrite <- Hrun. reflexivity. }
  subst res.
  destruct (C9_descriptor_values_persist _ _ _ _ Hrun) as (Hset & _ & _).
  apply (Hset "age" 0 (VInt 30)).
  - vm_compute. repeat constructor.
  - reflexivity.
  - intros key' v' Hin. vm_compute in Hin. set_unfold in Hin.
    destruct Hin as [H|[H|[H|[H|[H|[]]]]]]; inversion H; subst.
    vm_compute. by intros [= <-].
Defined.

(** ** Further properties of the field filters *)

(** X1: Checks look at the attribute, not at the argument: for every class
    but NumberRangeFilter (whose awaited query carries the argument),
    whether [filter_queryset] raises, and what, is the same for any two
    values passed as its [value] argument; the argument only ends up in
    the predicate. *)
Theorem filter_outcome_ignores_argument (self : ref) (qs : QuerySet)
    (v1 v2 : PyVal) (w : World) (e : PyExc) :
  fclass (heap w self) <> cNumberRangeFilter ->
  fst (filter_queryset self qs v1 w) = Raise e <->
  fst (filter_queryset self qs v2 w) = Raise e.
Proof.
  intros Hne.
  destruct (instantiable (fclass (heap w self))) eqn:Hc.
  - destruct (is_none_cases (value (heap w self))) as [Hv|Hv].
    + by rewrite !(fq_none self qs _ w Hc Hv).
    + rewrite !(fq_result self qs _ w Hc Hv).
      rewrite !(await_result_other _ _ _ Hne).
      destruct (_ || _); [|done]. by destruct (type_error _ _).
  - by rewrite !fq_abstract.
Qed.

Lemma filter_outcome_ignores_argument_witness :
  fst (filter_queryset 0 ex_qs (VInt 1) (world_of [ex_age_list] ex_age_list))
    = Raise (TypeError "Invalid type") <->
  fst (filter_queryset 0 ex_qs (VStr "x") (world_of [ex_age_list] ex_age_list))
    = Raise (TypeError "Invalid type").
Proof.
  apply (filter_outcome_ignores_argument 0 ex_qs (VInt 1) (VStr "x")
           (world_of [ex_age_list] ex_age_list)).
  discriminate.
Defined.

(** X2: InFilter overwrites its lookup before it validates: once its value is
    not [None], [lookup_expr] is ['in'] after the call whatever the lookup
    was and whether or not the call raises (it raises
    [TypeError('Invalid type')] when the value is not a list); no other
    descriptor is touched. *)
Theorem in_filter_overwrites_lookup (self : ref) (qs : QuerySet) (v : PyVal)
    (w : World) :
  let f := heap w self in
  let w' := snd (filter_queryset self qs v w) in
  fclass f = cInFilter ->
  value f <> VNone ->
  lookup_expr (heap w' self) = Some "in" /\
  (isinstance_list (value f) = false ->
   fst (filter_queryset self qs v w) = Raise (TypeError "Invalid type")) /\
  (isinstance_list (value f) = true ->
   fst (filter_queryset self qs v w)
     = Ok (qs_filter qs {[ (field_name f +:+ "__") +:+ "in" := v ]})) /\
  (forall r, r <> self -> heap w' r = heap w r).
Proof.
  intros f w' E Hv. subst f w'. rewrite fq_in by done.
  rewrite (is_none_false _ Hv).
  destruct (isinstance_list _); cbn [fst snd]; unfold force_in; cbn [heap];
    (split; [by rewrite fn_lookup_insert|]);
    (split; [done|]); (split; [done|]);
    intros r Hne; by rewrite fn_lookup_insert_ne.
Qed.

Lemma in_filter_overwrites_lookup_witness :
  lookup_expr ex_tags_gt = Some "gt" /\
  lookup_expr (heap (snd (filter_queryset 0 ex_qs (VList [VInt 1])
                            (world_of [ex_tags_gt] ex_tags_gt))) 0)
    = Some "in".
Proof.
  split; [reflexivity|].
  apply (in_filter_overwrites_lookup 0 ex_qs (VList [VInt 1])
           (world_of [ex_tags_gt] ex_tags_gt)); [reflexivity|discriminate].
Defined.

(** X3: A filter of a concrete class left with the default lookup ([None]) is
    never refused for its lookup: [None] is in every allow-list, so the
    call raises no [Exception]. *)
Theorem default_lookup_never_refused (self : ref) (qs : QuerySet) (v : PyVal)
    (w : World) (msg : string) :
  instantiable (fclass (heap w self)) = true ->
  lookup_expr (heap w self) = None ->
  fst (filter_queryset self qs v w) <> Raise (Exception_ msg).
Proof.
  intros Hc Hl.
  destruct (is_none_cases (value (heap w self))) as [Hv|Hv].
  - by rewrite (fq_none self qs v w Hc Hv).
  - rewrite (fq_result self qs v w Hc Hv).
    assert (Ha : lookup_allowed (heap w self) = true).
    { unfold lookup_allowed. rewrite Hl.
      destruct (instantiable_cases _ Hc) as [E|[E|[E|[E|[E|E]]]]]; rewrite E;
        vm_compute; reflexivity. }
    rewrite Ha, orb_true_r.
    destruct (type_error _ _) as [e|] eqn:Ht.
    + intros [= ->]. by apply type_error_not_Exception in Ht.
    + apply await_result_not_Exception.
Qed.

Lemma default_lookup_never_refused_witness :
  fst (filter_queryset 0 ex_qs (VList []) (world_of [ex_age_list] ex_age_list))
    <> Raise (Exception_ "Invalid lookup expression: None").
Proof.
  apply (default_lookup_never_refused 0 ex_qs (VList [])
           (world_of [ex_age_list] ex_age_list)); reflexivity.
Defined.

(** X4: [datetime] is a subclass of [date]: DateFilter takes a datetime value,
    DateTimeFilter refuses a plain date with [TypeError('Invalid type')]. *)
Theorem date_filters_and_subclassing (self : ref) (qs : QuerySet) (v : PyVal)
    (w : World) :
  let f := heap w self in
  lookup_allowed f = true ->
  (forall dt, fclass f = cDateFilter -> value f = VDateTime dt ->
     fst (filter_queryset self qs v w)
       = Ok (qs_filter qs {[ kwargs_key f := v ]})) /\
  (forall d, fclass f = cDateTimeFilter -> value f = VDate d ->
     fst (filter_queryset self qs v w) = Raise (TypeError "Invalid type")).
Proof.
  intros f Hl. subst f. split.
  - intros dt E Hv. rewrite fq_simple by (rewrite E; set_solver).
    by rewrite Hv, Hl, E.
  - intros d E Hv. rewrite fq_simple by (rewrite E; set_solver).
    by rewrite Hv, Hl, E.
Qed.

Lemma date_filters_and_subclassing_witness :
  fst (filter_queryset 0 ex_qs (VInt 0) (world_of [ex_created_date] ex_created_date))
    = Raise (TypeError "Invalid type").
Proof.
  pose proof (date_filters_and_subclassing 0 ex_qs (VInt 0)
                (world_of [ex_created_date] ex_created_date) eq_refl) as [_ H].
  apply (H (Date 2024 1 31)); reflexivity.
Defined.



(** X6: Construction keeps its arguments: an object a constructor returns has
    the class asked for and the field name, lookup, value and method
    given; an InFilter also records the annotation
    [Annotated[Union[List[type_field], None], Query(...)]].  Built without
    a value, it filters nothing. *)
Theorem constructed_filter_keeps_arguments (c : FilterClass) (a : InitArgs)
    (f : FieldFilter) :
  new c a = Ok f ->
  fclass f = c /\
  field_name f = a_field_name a /\
  lookup_expr f = a_lookup_expr a /\
  value f = a_value a /\
  method f = a_method a /\
  (c = cInFilter ->
   _annotations f
     = Some (TAnnotatedQuery (TUnion (TList (a_type_field a)) TNoneType))) /\
  (a_value a = VNone ->
   forall self qs v w, heap w self = f ->
     filter_queryset self qs v w = (Ok qs, w)).
Proof.
  intros Hnew.
  assert (Hwf : instantiable (fclass f) = true).
  { apply well_formed_instantiable. by eapply new_well_formed. }
  assert (Hfields : fclass f = c /\ field_name f = a_field_name a /\
            lookup_expr f = a_lookup_expr a /\ value f = a_value a /\
            method f = a_method a /\
            (c = cInFilter -> _annotations f
               = Some (TAnnotatedQuery
                         (TUnion (TList (a_type_field a)) TNoneType)))).
  { revert Hnew. unfold new.
    destruct c; vm_compute abstractmethods; cbv iota beta; try discriminate;
      intros [= <-]; repeat split; done. }
  destruct Hfields as (Hc & Hn & Hl & Hv & Hm & Ha).
  repeat (split; [done|]).
  intros Hnone self qs v w Hself.
  apply fq_none; rewrite Hself; [done|congruence].
Qed.

Lemma constructed_filter_keeps_arguments_witness :
  field_name ex_tags = "tags" /\
  _annotations ex_tags
    = Some (TAnnotatedQuery (TUnion (TList TInt) TNoneType)).
Proof.
  destruct (constructed_filter_keeps_arguments cInFilter
              (init_args "tags" None VNone) ex_tags eq_refl)
    as (_ & Hn & _ & _ & _ & Ha & _).
  split; [exact Hn|]. apply Ha. reflexivity.
Defined.

(** ** Further properties of the dependency schema *)

(** X7: [add_fields] takes each definition as a pair: a tuple of any other
    length among the definitions makes the whole call fail, so no field at
    all is added; standing first, it fails with the message about field
    definitions. *)
Theorem add_fields_rejects_other_tuples (cls : DependenciesClass)
    (defs : list (string * FieldDef)) (name : string) (l : list PyObj) :
  length l <> 2 ->
  ((name, DTuple l) ∈ defs -> forall cls', add_fields cls defs <> Ok cls') /\
  add_fields cls ((name, DTuple l) :: defs) = Raise (Exception_ add_fields_msg).
Proof.
  intros Hlen. split.
  - intros Hel cls'. unfold add_fields.
    destruct (add_fields_loop defs ∅) as [m|e] eqn:Hrun; [|done].
    by apply (add_fields_loop_arity _ _ _ _ Hel Hlen) in Hrun.
  - unfold add_fields. simpl. by destruct l as [|a [|dv [|x l]]].
Qed.

Lemma add_fields_rejects_other_tuples_witness :
  add_fields (create_dynamic_class "D")
    [("age", DTuple [OType TInt; OVal VNone; OVal VNone])]
  = Raise (Exception_ add_fields_msg).
Proof.
  apply (add_fields_rejects_other_tuples (create_dynamic_class "D") []
           "age" [OType TInt; OVal VNone; OVal VNone]).
  simpl. lia.
Defined.

(** X8: When [add_fields] returns, the class keeps its name, every name among
    the definitions is a field whose default is [None], whatever default
    the definition carried, and all other fields are as before. *)
Theorem add_fields_defaults_are_none (cls cls' : DependenciesClass)
    (defs : list (string * FieldDef)) :
  add_fields cls defs = Ok cls' ->
  dep_name cls' = dep_name cls /\
  (forall name, name ∈ defs.*1 ->
     exists fi, model_fields cls' !! name = Some fi /\ default fi = VNone) /\
  (forall name, name ∉ defs.*1 ->
     model_fields cls' !! name = model_fields cls !! name).
Proof.
  unfold add_fields.
  destruct (add_fields_loop defs ∅) as [m|e] eqn:Hrun; [|done].
  intros [= <-]. cbn [dep_name model_fields].
  destruct (add_fields_loop_spec _ _ _ Hrun) as (Hout & Hin & _).
  split; [done|]. split.
  - intros name Hel. destruct (Hin name Hel) as (fi & Hfi & Hd).
    exists fi. split; [|done]. by apply lookup_union_Some_l.
  - intros name Hnot. rewrite lookup_union_r; [done|].
    by rewrite (Hout name Hnot), lookup_empty.
Qed.

Lemma add_fields_defaults_are_none_witness :
  exists cls' fi,
    add_fields (create_dynamic_class "D")
      [("age", DTuple [OType TInt; OVal (VInt 18)])] = Ok cls' /\
    model_fields cls' !! "age" = Some fi /\ default fi = VNone.
Proof.
  destruct (add_fields (create_dynamic_class "D")
              [("age", DTuple [OType TInt; OVal (VInt 18)])])
    as [cls'|e] eqn:Hrun; [|discriminate Hrun].
  destruct (add_fields_defaults_are_none _ _ _ Hrun) as (_ & Hin & _).
  destruct (Hin "age") as (fi & Hfi & Hd); [vm_compute; repeat constructor|].
  exists cls', fi. repeat split; assumption.
Defined.

(** X9: With distinct names, [add_fields] annotates a field defined by a pair
    [(a, d)] with [Optional[a]], and a field defined by a bare default
    with [NoneType]: the default given is dropped and nothing stands for
    its type. *)
Theorem add_fields_annotations (cls cls' : DependenciesClass)
    (defs : list (string * FieldDef)) :
  NoDup defs.*1 ->
  add_fields cls defs = Ok cls' ->
  (forall name a d, (name, DTuple [a; d]) ∈ defs ->
     exists t, Optional_ a = Ok t /\
       model_fields cls' !! name
         = Some {| annotation := t; default := VNone |}) /\
  (forall name d, (name, DDefault d) ∈ defs ->
     model_fields cls' !! name
       = Some {| annotation := TNoneType; default := VNone |}).
Proof.
  intros Hnd. unfold add_fields.
  destruct (add_fields_loop defs ∅) as [m|e] eqn:Hrun; [|done].
  intros [= <-]. cbn [model_fields].
  destruct (add_fields_loop_spec _ _ _ Hrun) as (_ & _ & Hann).
  specialize (Hann Hnd). split.
  - intros name a d Hel. destruct (Hann _ _ Hel) as (t & Hm & Ht).
    exists t. split; [done|]. by apply lookup_union_Some_l.
  - intros name d Hel. destruct (Hann _ _ Hel) as (t & Hm & ->).
    by apply lookup_union_Some_l.
Qed.

Lemma add_fields_annotations_witness :
  exists cls',
    add_fields (create_dynamic_class "D")
      [("age", DTuple [OType TInt; OVal VNone]); ("limit", DDefault (OVal (VInt 10)))]
      = Ok cls' /\
    model_fields cls' !! "limit"
      = Some {| annotation := TNoneType; default := VNone |}.
Proof.
  destruct (add_fields (create_dynamic_class "D")
              [("age", DTuple [OType TInt; OVal VNone]);
               ("limit", DDefault (OVal (VInt 10)))])
    as [cls'|e] eqn:Hrun; [|discriminate Hrun].
  assert (Hnd : NoDup ([("age", DTuple [OType TInt; OVal VNone]);
                        ("limit", DDefault (OVal (VInt 10)))].*1)).
  { cbn. apply NoDup_cons_2; [|apply NoDup_singleton].
    intros [=]%list_elem_of_singleton. }
  destruct (add_fields_annotations _ _ _ Hnd Hrun) as (_ & Hdef).
  exists cls'. split; [reflexivity|].
  apply (Hdef "limit" (OVal (VInt 10))). repeat constructor.
Defined.

(** ** Further properties of the filter sets *)

(** X10: A filter set with no model bound cannot be used: [to_dependencies]
    and [filter_queryset] both raise [AttributeError], whatever filters are
    declared and whatever the parameters, and [filter_queryset] has then
    touched nothing. *)
Theorem unbound_model_raises (self : FilterSetInstance) (w : World) :
  model (self_class self) = None ->
  BaseFilterSet.to_dependencies (self_class self) w
    = Raise (AttributeError "'NoneType' object has no attribute '_meta'") /\
  FilterSet.filter_queryset self w
    = (Raise (AttributeError "'NoneType' object has no attribute 'all'"), w).
Proof.
  intros Hm. split.
  - unfold BaseFilterSet.to_dependencies, BaseFilterSet.check_fields_appearance.
    by rewrite Hm.
  - by rewrite filter_set_queryset_eq, Hm.
Qed.

Lemma unbound_model_raises_witness :
  FilterSet.filter_queryset
    {| self_class := {| cls_name := "F"; model := None;
                        body := [("age", AFilter 0)] |};
       query_params := {[ "age" := VInt 1 ]} |} ex_world
  = (Raise (AttributeError "'NoneType' object has no attribute 'all'"), ex_world).
Proof.
  apply (unbound_model_raises
           {| self_class := {| cls_name := "F"; model := None;
                               body := [("age", AFilter 0)] |};
              query_params := {[ "age" := VInt 1 ]} |} ex_world).
  reflexivity.
Defined.

(** X11: With no query parameters, [filter_queryset] returns the model's
    queryset with no predicate and leaves the world as it was. *)
Theorem no_parameters_no_filter (self : FilterSetInstance) (m : Model)
    (w : World) :
  model (self_class self) = Some m ->
  query_params self = ∅ ->
  FilterSet.filter_queryset self w
    = (Ok {| qs_model := model_name m; qs_filters := [] |}, w).
Proof.
  intros Hm Hp. by rewrite filter_set_queryset_eq, Hm, Hp, apply_loop_no_params.
Qed.

Lemma no_parameters_no_filter_witness :
  FilterSet.filter_queryset (ex_instance ∅) ex_world
    = (Ok {| qs_model := "User"; qs_filters := [] |}, ex_world).
Proof.
  apply (no_parameters_no_filter (ex_instance ∅) ex_model ex_world);
    reflexivity.
Defined.

(** X12: Filtering changes values only: whatever the outcome of
    [FilterSet.filter_queryset], every descriptor keeps its class, field
    name, method and annotations, and its lookup unless it is an InFilter;
    a descriptor that no present parameter names keeps its value too. *)
Theorem filtering_keeps_descriptor_shape (self : FilterSetInstance) (w : World)
    (r : ref) :
  let w' := snd (FilterSet.filter_queryset self w) in
  fclass (heap w' r) = fclass (heap w r) /\
  field_name (heap w' r) = field_name (heap w r) /\
  method (heap w' r) = method (heap w r) /\
  _annotations (heap w' r) = _annotations (heap w r) /\
  (fclass (heap w r) <> cInFilter ->
   lookup_expr (heap w' r) = lookup_expr (heap w r)) /\
  ((forall key, (key, AFilter r) ∈ class_dict (self_class self) ->
      query_params self !! key = None) ->
   value (heap w' r) = value (heap w r)).
Proof.
  simpl. rewrite filter_set_queryset_eq.
  destruct (model (self_class self)) as [m|]; [|done].
  destruct (apply_loop_shape (class_dict (self_class self)) (query_params self)
              {| qs_model := model_name m; qs_filters := [] |} w r)
    as (Hc & Hf & Hm & Ha & Hl).
  repeat (split; [done|]). intros Hnone. by apply apply_loop_untouched.
Qed.

Lemma filtering_keeps_descriptor_shape_witness :
  value (heap (snd (FilterSet.filter_queryset
                      (ex_instance {[ "age" := VInt 30 ]}) ex_world)) 1)
    = value (heap ex_world 1).
Proof.
  destruct (filtering_keeps_descriptor_shape
              (ex_instance {[ "age" := VInt 30 ]}) ex_world 1)
    as (_ & _ & _ & _ & _ & H).
  apply H. intros key [Hd|[Hd|Hd]]%ex_cls_declared; inversion Hd; subst.
  reflexivity.
Defined.

(** X13: The schema does not depend on what filtering has stored:
    [to_dependencies] of any class gives the same result before and after
    any call of [FilterSet.filter_queryset]. *)
Theorem schema_unaffected_by_filtering (cls : FilterSetClass)
    (self : FilterSetInstance) (w : World) :
  BaseFilterSet.to_dependencies cls (snd (FilterSet.filter_queryset self w))
  = BaseFilterSet.to_dependencies cls w.
Proof.
  apply to_dependencies_shape. rewrite filter_set_queryset_eq.
  destruct (model (self_class self)); [apply apply_loop_shape|].
  apply same_shape_refl.
Qed.

(** X14: Values left in the descriptors by an earlier call do not leak into a
    later one: the result of [FilterSet.filter_queryset] (the queryset, or
    the exception) is the same after any other call as before it. *)
Theorem earlier_calls_do_not_leak (first self : FilterSetInstance) (w : World) :
  (forall key r, (key, AFilter r) ∈ class_dict (self_class self) ->
     instantiable (fclass (heap w r)) = true) ->
  fst (FilterSet.filter_queryset self
         (snd (FilterSet.filter_queryset first w)))
  = fst (FilterSet.filter_queryset self w).
Proof.
  intros Hinst. set (w' := snd (FilterSet.filter_queryset first w)).
  assert (Hs : same_static (heap w) (heap w')).
  { apply same_shape_static. unfold w'. rewrite filter_set_queryset_eq.
    destruct (model (self_class first)); [apply apply_loop_shape|].
    apply same_shape_refl. }
  assert (Hdb : db w' = db w).
  { unfold w'. rewrite filter_set_queryset_eq.
    destruct (model (self_class first)); [apply apply_loop_db|done]. }
  rewrite !filter_set_queryset_eq.
  destruct (model (self_class self)) as [m|]; [|done].
  rewrite (apply_loop_outcome _ _ (heap w) Hinst _ w' Hs).
  rewrite (apply_loop_outcome _ _ (heap w) Hinst _ w (same_static_refl _)).
  by apply outcome_db.
Qed.

Lemma earlier_calls_do_not_leak_witness :
  fst (FilterSet.filter_queryset (ex_instance {[ "tags" := VList [VInt 1] ]})
         (snd (FilterSet.filter_queryset
                 (ex_instance {[ "age" := VInt 30 ]}) ex_world)))
  = Ok {| qs_model := "User";
          qs_filters := [ {[ "tags__in" := VList [VInt 1] ]} ] |}.
Proof.
  rewrite (earlier_calls_do_not_leak (ex_instance {[ "age" := VInt 30 ]})
             (ex_instance {[ "tags" := VList [VInt 1] ]}) ex_world
             ex_cls_instantiable).
  vm_compute. reflexivity.
Defined.

(** X15: For a filter set that declares no NumberRangeFilter (so that no
    query is awaited) and ASCII string parameters,
    [FilterSet.filter_queryset] returns a queryset
    exactly when every declared filter named by a parameter with a value
    other than [None] accepts that value (allowed lookup, value passing
    the type check). *)
Theorem returns_iff_all_accepted (self : FilterSetInstance) (m : Model)
    (w : World) :
  model (self_class self) = Some m ->
  (forall key r, (key, AFilter r) ∈ class_dict (self_class self) ->
     instantiable (fclass (heap w r)) = true) ->
  (forall key r, (key, AFilter r) ∈ class_dict (self_class self) ->
     fclass (heap w r) <> cNumberRangeFilter) ->
  (forall key v, query_params self !! key = Some v -> ascii_value v = true) ->
  (exists q, fst (FilterSet.filter_queryset self w) = Ok q) <->
  (forall key r v, (key, AFilter r) ∈ class_dict (self_class self) ->
     query_params self !! key = Some v -> v <> VNone ->
     accepts (heap w r) v = true).
Proof.
  intros Hm Hinst Hnr _. rewrite filter_set_queryset_eq, Hm.
  rewrite (apply_loop_outcome _ _ (heap w) Hinst _ w (same_static_refl _)).
  apply outcome_ok_iff; [done|].
  intros k r q Hin. apply await_result_other. by eapply Hnr.
Qed.

Lemma returns_iff_all_accepted_witness :
  ~ exists q,
      fst (FilterSet.filter_queryset
             {| self_class := ex_cls_height;
                query_params := {[ "age" := VStr "abc" ]} |}
             ex_world_height) = Ok q.
Proof.
  intros Hq.
  pose proof (proj1 (returns_iff_all_accepted
                       {| self_class := ex_cls_height;
                          query_params := {[ "age" := VStr "abc" ]} |}
                       ex_model ex_world_height eq_refl
                       ex_cls_height_instantiable ex_cls_height_no_range
                       ex_params_ascii) Hq)
    as H.
  specialize (H "age" 0 (VStr "abc")).
  assert (Hacc : accepts (heap ex_world_height 0) (VStr "abc") = true).
  { apply H; [vm_compute; repeat constructor|reflexivity|discriminate]. }
  vm_compute in Hacc. discriminate Hacc.
Defined.



(** X17: Parameters that name no declared filter are ignored: two parameter
    dictionaries that agree on the names of the declared filters give the
    same result. *)
Theorem undeclared_parameters_are_ignored (cls : FilterSetClass)
    (params1 params2 : gmap string PyVal) (w : World) :
  (forall key r, (key, AFilter r) ∈ class_dict cls ->
     instantiable (fclass (heap w r)) = true) ->
  (forall key r, (key, AFilter r) ∈ class_dict cls ->
     params1 !! key = params2 !! key) ->
  fst (FilterSet.filter_queryset
         {| self_class := cls; query_params := params1 |} w)
  = fst (FilterSet.filter_queryset
           {| self_class := cls; query_params := params2 |} w).
Proof.
  intros Hinst Hext. rewrite !filter_set_queryset_eq. cbn [self_class query_params].
  destruct (model cls) as [m|]; [|done].
  rewrite !(apply_loop_outcome _ _ (heap w) Hinst _ w (same_static_refl _)).
  by apply outcome_params_ext.
Qed.

Lemma undeclared_parameters_are_ignored_witness :
  fst (FilterSet.filter_queryset
         (ex_instance {[ "age" := VInt 30; "page" := VInt 2 ]}) ex_world)
  = fst (FilterSet.filter_queryset
           (ex_instance {[ "age" := VInt 30 ]}) ex_world).
Proof.
  apply (undeclared_parameters_are_ignored ex_cls
           {[ "age" := VInt 30; "page" := VInt 2 ]} {[ "age" := VInt 30 ]}
           ex_world ex_cls_instantiable).
  intros key r [Hd|[Hd|Hd]]%ex_cls_declared; inversion Hd; subst;
    vm_compute; reflexivity.
Defined.

(** X18: A filter set that declares no NumberRangeFilter never runs a query in
    [filter_queryset], whatever the outcome: the queryset it returns is
    still to be evaluated. *)
Theorem no_query_without_range_filter (self : FilterSetInstance) (w : World) :
  (forall key r, (key, AFilter r) ∈ class_dict (self_class self) ->
     fclass (heap w r) <> cNumberRangeFilter) ->
  executed (snd (FilterSet.filter_queryset self w)) = executed w.
Proof.
  intros Hcl. rewrite filter_set_queryset_eq.
  destruct (model (self_class self)) as [m|]; [|done].
  by apply (apply_loop_executed _ _ (heap w) _ w (same_shape_refl _)).
Qed.

Lemma no_query_without_range_filter_witness :
  executed (snd (FilterSet.filter_queryset
                   {| self_class := ex_cls_height;
                      query_params := {[ "age" := VInt 30 ]} |}
                   ex_world_height))
  = [].
Proof.
  apply (no_query_without_range_filter
           {| self_class := ex_cls_height;
              query_params := {[ "age" := VInt 30 ]} |} ex_world_height).
  intros key r Hin. vm_compute in Hin. set_unfold in Hin.
  destruct Hin as [H|[H|[H|[]]]]; inversion H; subst; discriminate.
Defined.
